(** * Content-addressed artifact manifests: wandb/apis/artifacts.py

    A shallow embedding of the artifact module: path-spec resolution,
    the canonical metadata serialization, manifest construction, and the
    create / stream / commit synchronization of [LocalArtifact].

    Strings are byte strings (UTF-8), so the lexicographic order of
    [String.compare] is Python's code-point order.  A Python [dict] is an
    association list with unique keys, kept in iteration order, because
    the order in which [items()] yields the pairs decides the order of
    the manifest entries. *)

From Stdlib Require Import String Ascii List ZArith Bool Lia.
From Stdlib Require Import Permutation Sorted OrderedTypeEx DecimalString.
Import ListNotations.
Open Scope string_scope.

(* ================================================================= *)
(** ** Python exceptions and the error monad *)

Inductive exn : Type :=
| ValueError (msg : string)
| Exception (msg : string)
| TypeError (msg : string)
| AttributeError (msg : string)
| IOError.

Inductive result (A : Type) : Type :=
| Ok (a : A)
| Raise (e : exn).
Arguments Ok {A} a.
Arguments Raise {A} e.

Definition bind {A B} (c : result A) (k : A -> result B) : result B :=
  match c with
  | Ok a => k a
  | Raise e => Raise e
  end.

Declare Scope py_scope.
Delimit Scope py_scope with py.
Notation "x <- c ;; k" := (bind c (fun x => k))
  (at level 61, c at next level, right associativity) : py_scope.
Notation "' pat <- c ;; k" := (bind c (fun x => match x with pat => k end))
  (at level 61, pat pattern, c at next level, right associativity) : py_scope.
Open Scope py_scope.

(** [for x in l: ...] collecting one value per element; the first
    exception leaves the loop. *)
Definition mapM {A B} (f : A -> result B) : list A -> result (list B) :=
  fix go (l : list A) : result (list B) :=
    match l with
    | [] => Ok []
    | x :: t =>
        match f x with
        | Raise e => Raise e
        | Ok y => match go t with
                  | Raise e => Raise e
                  | Ok ys => Ok (y :: ys)
                  end
        end
    end.

(** The names the specification gives to the raise sites of the module. *)
Definition DuplicateNameError : exn :=
  ValueError "Duplicate file name found in artifact file list. Pass a dictionary instead.".
Definition InvalidInputError : exn :=
  ValueError "paths must be a list, dictionary, or valid file or directory path.".
Definition EmptyInputError : exn :=
  ValueError "At least one valid path must be specified.".
Definition AmbiguousMetadataError : exn :=
  ValueError "may not specify metadata argument if paths contains artifact-metadata.json".
Definition SerializationError : exn :=
  ValueError "Out of range float values are not JSON compliant".
Definition UnexpectedStateError : exn :=
  Exception "Server artifact not in PENDING state".
Definition NotSavedError : exn :=
  ValueError "Must call save first".
Definition PathTypeError : exn :=
  ValueError "path must be a local file or directory".
Definition NotCallableError : exn :=
  TypeError "'str' object is not callable".
Definition NoAttributeError : exn :=
  AttributeError "'dict' object has no attribute 'state'".
Definition NoIdAttributeError : exn :=
  AttributeError "'dict' object has no attribute 'id'".
Definition NoneTypeIdError : exn :=
  AttributeError "'NoneType' object has no attribute 'id'".

(* ================================================================= *)
(** ** Dictionaries *)

Definition dict (V : Type) : Type := list (string * V).

Definition keys {V} (d : dict V) : list string := map fst d.

Fixpoint dict_get {V} (d : dict V) (k : string) : option V :=
  match d with
  | [] => None
  | (k', v) :: t => if (k' =? k)%string then Some v else dict_get t k
  end.

(** [k in d] *)
Definition dict_mem {V} (k : string) (d : dict V) : bool :=
  match dict_get d k with Some _ => true | None => false end.

(** [d[k] = v]: an existing key keeps its place, a new one goes last. *)
Fixpoint dict_set {V} (d : dict V) (k : string) (v : V) : dict V :=
  match d with
  | [] => [(k, v)]
  | (k', v') :: t =>
      if (k' =? k)%string then (k, v) :: t else (k', v') :: dict_set t k v
  end.

(** What is left of [d] after [d.pop(k)]. *)
Definition dict_remove {V} (d : dict V) (k : string) : dict V :=
  filter (fun kv => negb (fst kv =? k)%string) d.

Fixpoint nodupb (l : list string) : bool :=
  match l with
  | [] => true
  | x :: t => negb (existsb (String.eqb x) t) && nodupb t
  end.

(** [sorted(d.items())]: the keys of a dictionary are distinct, so the
    order of the pairs is the order of their keys. *)
Fixpoint insert_item {V} (x : string * V) (l : list (string * V)) : list (string * V) :=
  match l with
  | [] => [x]
  | y :: t => if String.leb (fst x) (fst y) then x :: y :: t else y :: insert_item x t
  end.

Fixpoint sorted_items {V} (l : list (string * V)) : list (string * V) :=
  match l with
  | [] => []
  | x :: t => insert_item x (sorted_items t)
  end.

(** The order [sorted] puts two items in. *)
Definition key_le {V} (a b : string * V) : Prop := String.leb (fst a) (fst b) = true.

(** [sep.join(l)] *)
Fixpoint join (sep : string) (l : list string) : string :=
  match l with
  | [] => ""
  | [x] => x
  | x :: t => x ++ sep ++ join sep t
  end.

(** [s * n] *)
Fixpoint repeat_string (s : string) (n : nat) : string :=
  match n with
  | O => ""
  | S m => s ++ repeat_string s m
  end.

Definition newline : string := String (ascii_of_nat 10) EmptyString.
Definition nul : string := String (ascii_of_nat 0) EmptyString.

(* ================================================================= *)
(** ** posixpath.basename *)

Fixpoint has_sep (p : string) : bool :=
  match p with
  | EmptyString => false
  | String c rest => (c =? "/")%char || has_sep rest
  end.

(** [p[p.rfind('/') + 1:]] *)
Fixpoint basename (p : string) : string :=
  match p with
  | EmptyString => EmptyString
  | String c rest =>
      if has_sep rest then basename rest
      else if (c =? "/")%char then rest else p
  end.

(* ================================================================= *)
(** ** JSON documents and [json.dump(..., sort_keys=True, allow_nan=False, indent=4)] *)

(** A float is either finite, identified by its [repr], or one of the
    three values that [allow_nan=False] rejects. *)
Inductive pyfloat : Type :=
| Finite (repr : string)
| NaN
| Infinity
| NegInfinity.

#[local] Set Warnings "-register-all".

Inductive json : Type :=
| JNull
| JBool (b : bool)
| JInt (z : Z)
| JFloat (f : pyfloat)
| JStr (s : string)
| JList (l : list json)
| JDict (d : list (string * json)).

(** Induction on documents that reaches the elements of lists and the
    members of dictionaries. *)
Section JsonInduction.
Variable P : json -> Prop.
Hypothesis Hnull : P JNull.
Hypothesis Hbool : forall b, P (JBool b).
Hypothesis Hint : forall z, P (JInt z).
Hypothesis Hfloat : forall f, P (JFloat f).
Hypothesis Hstr : forall s, P (JStr s).
Hypothesis Hlist : forall l, Forall P l -> P (JList l).
Hypothesis Hdict : forall d, Forall (fun kv => P (snd kv)) d -> P (JDict d).

Fixpoint json_nested_ind (o : json) : P o :=
  match o with
  | JNull => Hnull
  | JBool b => Hbool b
  | JInt z => Hint z
  | JFloat f => Hfloat f
  | JStr s => Hstr s
  | JList l =>
      Hlist l ((fix go (l : list json) : Forall P l :=
                  match l with
                  | [] => Forall_nil _
                  | x :: t => Forall_cons x (json_nested_ind x) (go t)
                  end) l)
  | JDict d =>
      Hdict d ((fix go (d : list (string * json)) : Forall (fun kv => P (snd kv)) d :=
                  match d with
                  | [] => Forall_nil _
                  | kv :: t => Forall_cons kv (json_nested_ind (snd kv)) (go t)
                  end) d)
  end.
End JsonInduction.

Definition int_repr (z : Z) : string := NilZero.string_of_int (Z.to_int z).

(** [floatstr] of json.encoder with [allow_nan=False]. *)
Definition floatstr (f : pyfloat) : result string :=
  match f with
  | Finite repr => Ok repr
  | NaN | Infinity | NegInfinity => Raise SerializationError
  end.

Definition INDENT : string := "    ".

Definition newline_indent (level : nat) : string :=
  newline ++ repeat_string INDENT level.

(** The string encoder ([encode_basestring_ascii]) and the item
    separator ([','] with an indent on Python 3.4 and later, [', ']
    before) belong to the interpreter's json module. *)
Class JsonEncoder : Type := {
  encode_basestring : string -> string;
  item_separator : string;
  key_separator : string
}.

Section Dump.
Context {enc : JsonEncoder}.

Definition render_list (level : nat) (chunks : list string) : string :=
  "[" ++ newline_indent (S level)
      ++ join (item_separator ++ newline_indent (S level)) chunks
      ++ newline_indent level ++ "]".

Definition render_item (kv : string * string) : string :=
  encode_basestring (fst kv) ++ key_separator ++ snd kv.

Definition render_dict (level : nat) (items : list (string * string)) : string :=
  "{" ++ newline_indent (S level)
      ++ join (item_separator ++ newline_indent (S level)) (map render_item items)
      ++ newline_indent level ++ "}".

(** [_iterencode] at [_current_indent_level = level].  The members of a
    dictionary are encoded and then put in key order; the encoder
    sorts the items first and encodes them in that order, which gives
    the same text and the same exception, every exception of the
    encoder being [SerializationError]. *)
Fixpoint iterencode (level : nat) (o : json) : result string :=
  match o with
  | JNull => Ok "null"
  | JBool true => Ok "true"
  | JBool false => Ok "false"
  | JInt z => Ok (int_repr z)
  | JFloat f => floatstr f
  | JStr s => Ok (encode_basestring s)
  | JList [] => Ok "[]"
  | JList l =>
      chunks <- mapM (iterencode (S level)) l ;;
      Ok (render_list level chunks)
  | JDict [] => Ok "{}"
  | JDict d =>
      items <- mapM (fun kv => v <- iterencode (S level) (snd kv) ;; Ok (fst kv, v)) d ;;
      Ok (render_dict level (sorted_items items))
  end.

(** One member of a dictionary at [level]: its key and the text of its
    value. *)
Definition encode_item (level : nat) (kv : string * json) : result (string * string) :=
  v <- iterencode (S level) (snd kv) ;; Ok (fst kv, v).
End Dump.

(** Two documents are the same logical document when they differ only in
    the order in which their objects list their members. *)
Inductive same_doc : json -> json -> Prop :=
| same_null : same_doc JNull JNull
| same_bool b : same_doc (JBool b) (JBool b)
| same_int z : same_doc (JInt z) (JInt z)
| same_float f : same_doc (JFloat f) (JFloat f)
| same_str s : same_doc (JStr s) (JStr s)
| same_list l1 l2 : same_elems l1 l2 -> same_doc (JList l1) (JList l2)
| same_dict d1 d1' d2 :
    Permutation d1 d1' -> same_items d1' d2 -> same_doc (JDict d1) (JDict d2)
with same_elems : list json -> list json -> Prop :=
| same_elems_nil : same_elems [] []
| same_elems_cons x y l1 l2 :
    same_doc x y -> same_elems l1 l2 -> same_elems (x :: l1) (y :: l2)
with same_items : list (string * json) -> list (string * json) -> Prop :=
| same_items_nil : same_items [] []
| same_items_cons k x y d1 d2 :
    same_doc x y -> same_items d1 d2 -> same_items ((k, x) :: d1) ((k, y) :: d2).

Scheme same_doc_ind' := Minimality for same_doc Sort Prop
  with same_elems_ind' := Minimality for same_elems Sort Prop
  with same_items_ind' := Minimality for same_items Sort Prop.
Combined Scheme same_doc_mutind from same_doc_ind', same_elems_ind', same_items_ind'.

(** Every object of the document has distinct keys, as a [dict] has. *)
Fixpoint distinct_keys (o : json) : bool :=
  match o with
  | JList l => forallb distinct_keys l
  | JDict d => nodupb (map fst d) && forallb (fun kv => distinct_keys (snd kv)) d
  | _ => true
  end.

(** The document holds a NaN or an infinity somewhere. *)
Fixpoint has_nonfinite (o : json) : bool :=
  match o with
  | JFloat (Finite _) => false
  | JFloat _ => true
  | JList l => existsb has_nonfinite l
  | JDict d => existsb (fun kv => has_nonfinite (snd kv)) d
  | _ => false
  end.

(* ================================================================= *)
(** ** The platform: file system, hashing, json *)

(** What the module asks of the operating system and of the helpers it
    imports: [os.path], [os.walk] (directory path and file names of each
    directory visited), [wandb.util.md5_file], the md5 of a scratch file
    holding a given text, [json.load] and [json.dumps]. *)
Class Platform : Type := {
  isdir : string -> bool;
  isfile : string -> bool;
  walk : string -> list (string * list string);
  path_join : string -> string -> string;
  relpath : string -> string -> string;
  abspath : string -> string;
  dirname : string -> string;
  md5_file : string -> result string;
  md5_text : string -> string;
  json_load : string -> result json;
  json_dumps : option json -> string;
  temp_name : nat -> string;
  json_encoder :: JsonEncoder
}.

Definition ARTIFACT_METADATA_FILENAME : string := "artifact-metadata.json".

(** The three shapes of the [paths] argument: a list, a dict, anything
    else (a single file or directory path). *)
Inductive user_paths : Type :=
| PathList (l : list string)
| PathDict (d : dict string)
| PathSingle (p : string).

Section PathSpecs.
Context {os : Platform}.

Definition hash_file (p : string) : result string := md5_file p.

(** The item a path of the list form stands for. *)
Definition spec_of_path (p : string) : string * string := (basename p, p).

(** The loop over a list of paths, from the dictionary built so far. *)
Fixpoint add_paths (paths : list string) (path_specs : dict string)
  : result (dict string) :=
  match paths with
  | [] => Ok path_specs
  | p :: rest =>
      let name := basename p in
      if dict_mem name path_specs then Raise DuplicateNameError
      else add_paths rest (dict_set path_specs name p)
  end.

(** The two nested loops over [os.walk(root, followlinks=True)]. *)
Definition add_walk (root : string) (path_specs : dict string) : dict string :=
  fold_left
    (fun specs dir =>
       fold_left
         (fun specs fname =>
            let local := path_join (fst dir) fname in
            dict_set specs (relpath local root) local)
         (snd dir) specs)
    (walk root) path_specs.

(** The local paths of the files a walk of [root] meets, in the order it
    meets them. *)
Definition walked_files (root : string) : list string :=
  flat_map (fun dir => map (path_join (fst dir)) (snd dir)) (walk root).

(** A [dict] passed by the caller has distinct keys. *)
Definition well_formed (paths : user_paths) : Prop :=
  match paths with
  | PathDict d => NoDup (keys d)
  | _ => True
  end.

(** Lines 86 to 114: the dictionary each branch leaves in [path_specs]. *)
Definition path_specs_of (paths : user_paths) : result (dict string) :=
  match paths with
  | PathList l => add_paths l []
  | PathDict d => Ok d
  | PathSingle p =>
      if isdir p then Ok (add_walk p [])
      else if isfile p then Ok (dict_set [] (basename p) p)
      else Raise InvalidInputError
  end.

Definition user_paths_to_path_specs (paths : user_paths) : result (dict string) :=
  path_specs <- path_specs_of paths ;;
  if (length path_specs =? 0)%nat then Raise EmptyInputError
  else Ok path_specs.
End PathSpecs.

(* ================================================================= *)
(** ** ArtifactMetadata *)

Module ArtifactMetadata.
Section Defs.
Context {os : Platform}.

Definition from_file (p : string) : result json := json_load p.

(** [json.dump(self._metadata, fp, sort_keys=True, allow_nan=False, indent=4)]:
    the text written to [fp]. *)
Definition dump (metadata : json) : result string := iterencode 0 metadata.

(** The dump goes to a scratch file whose md5 is returned. *)
Definition digest (metadata : json) : result string :=
  text <- dump metadata ;;
  Ok (md5_text text).
End Defs.
End ArtifactMetadata.

(* ================================================================= *)
(** ** LocalArtifactManifestV1 *)

Record LocalArtifactEntry : Type := {
  path : string;
  hash : string;
  local_path : option string
}.

(** The entry that stands for the metadata: no local file behind it. *)
Definition reserved_entry (h : string) : LocalArtifactEntry :=
  {| path := ARTIFACT_METADATA_FILENAME; hash := h; local_path := None |}.

Section ManifestDigest.
Context {os : Platform}.

(** Modelled from the spec: the class [ArtifactManifestV1] of
    wandb/apis/artifact_manifest.py, whose [digest] the local manifest
    takes over, is not among the sources.  The digest is the hash of the
    concatenation of [logical_path + NUL + content_hash], one record per
    entry, NUL-separated, over the entries sorted by logical path. *)
Definition ArtifactManifestV1_digest (entries : list LocalArtifactEntry) : string :=
  md5_text
    (join nul
       (map (fun kv => fst kv ++ nul ++ snd kv)
            (sorted_items (map (fun e => (path e, hash e)) entries)))).
End ManifestDigest.

(** [metadata is not None]: the argument counts as given unless it is
    Python's [None], which is also what the JSON null is; so a null
    argument is no metadata.  (A metadata file that holds [null] is
    another matter: it is loaded into an [ArtifactMetadata] object.) *)
Definition given_metadata (metadata : option json) : option json :=
  match metadata with
  | Some JNull => None
  | _ => metadata
  end.

Module LocalArtifactManifestV1.
Section Defs.
Context {os : Platform}.

Record t : Type := {
  _path_specs : dict string;
  _metadata : option json;
  _local_entries : list LocalArtifactEntry;
  _digest : string
}.

(** Lines 127 to 135: the explicit argument, or the file found under
    the reserved name, which leaves the path specs. *)
Definition take_metadata (path_specs : dict string) (metadata : option json)
  : result (dict string * option json) :=
  match dict_get path_specs ARTIFACT_METADATA_FILENAME with
  | Some local =>
      match metadata with
      | Some _ => Raise AmbiguousMetadataError
      | None =>
          doc <- ArtifactMetadata.from_file local ;;
          Ok (dict_remove path_specs ARTIFACT_METADATA_FILENAME, Some doc)
      end
  | None => Ok (path_specs, metadata)
  end.

Definition metadata_entries (metadata : option json) : result (list LocalArtifactEntry) :=
  match metadata with
  | Some doc =>
      h <- ArtifactMetadata.digest doc ;;
      Ok [ reserved_entry h ]
  | None => Ok []
  end.

Definition file_entry (spec : string * string) : result LocalArtifactEntry :=
  h <- hash_file (snd spec) ;;
  Ok {| path := fst spec; hash := h; local_path := Some (abspath (snd spec)) |}.

Definition __init__ (paths : user_paths) (metadata : option json) : result t :=
  path_specs <- user_paths_to_path_specs paths ;;
  ' (path_specs, metadata) <- take_metadata path_specs (given_metadata metadata) ;;
  first <- metadata_entries metadata ;;
  files <- mapM file_entry path_specs ;;
  let local_entries := (first ++ files)%list in
  Ok {| _path_specs := path_specs;
        _metadata := metadata;
        _local_entries := local_entries;
        _digest := ArtifactManifestV1_digest local_entries |}.

Definition entries (self : t) : list LocalArtifactEntry := _local_entries self.
Definition digest (self : t) : string := _digest self.
Definition metadata (self : t) : option json := _metadata self.

(** The lines [dump] writes after the three header lines. *)
Definition entry_lines (self : t) : list string :=
  map (fun e =>
         path e ++ " "
           ++ match local_path e with Some p => p | None => "None" end
           ++ " " ++ hash e ++ newline)
      (filter (fun e => negb (path e =? ARTIFACT_METADATA_FILENAME)%string)
              (_local_entries self)).

Definition dump (self : t) : string :=
  "version: 1" ++ newline
    ++ "digest: " ++ _digest self ++ newline
    ++ "metadata: "
    ++ match _metadata self with Some doc => json_dumps (Some doc) | None => "" end
    ++ newline
    ++ String.concat "" (entry_lines self).
End Defs.
End LocalArtifactManifestV1.

(* ================================================================= *)
(** ** The remote registry and the file pusher *)

(** What [create_artifact_version] returns.  [save] reads it by
    subscript (['state'], ['id']), [wait] and [commit] by attribute
    ([.state], [.id]); [sa_attrs] tells whether the object also answers
    attribute access or is a plain dict, on which it raises. *)
Record ServerArtifact : Type := {
  sa_id : string;
  sa_state : string;
  sa_attrs : bool
}.

(** The registry service.  Each call may change the remote, and the
    remote moves on by itself while the client sleeps ([elapse], per
    second); [version_state] is the query that reads a version's current
    state. *)
Class Api (remote : Type) : Type := {
  create_artifact : string -> remote -> string * remote;
  create_artifact_version :
    string -> string -> string -> bool -> remote -> ServerArtifact * remote;
  commit_artifact_version : string -> remote -> remote;
  version_state : string -> remote -> string;
  elapse : nat -> remote -> remote
}.

(** The calls a [FilePusher] receives. *)
Inductive pusher_call : Type :=
| named_temp_file (name : string)
| file_changed (save_name : string) (file : option string) (artifact_id : string)
| commit_artifact (artifact_id : string).

Definition is_transfer (c : pusher_call) : bool :=
  match c with
  | named_temp_file _ => false
  | file_changed _ _ _ => true
  | commit_artifact _ => true
  end.

(** Everything outside the coordinator object: the remote, the calls
    the file pusher has received (latest last), the scratch files written,
    and the seconds slept. *)
Record world (remote : Type) : Type := {
  the_remote : remote;
  pushed : list pusher_call;
  temp_files : dict string;
  slept : nat
}.
Arguments the_remote {remote} w.
Arguments pushed {remote} w.
Arguments temp_files {remote} w.
Arguments slept {remote} w.

Definition set_remote {remote} (w : world remote) (r : remote) : world remote :=
  {| the_remote := r; pushed := pushed w; temp_files := temp_files w; slept := slept w |}.

Definition push {remote} (c : pusher_call) (w : world remote) : world remote :=
  {| the_remote := the_remote w; pushed := pushed w ++ [c];
     temp_files := temp_files w; slept := slept w |}.

(** The world after the pusher has received [calls], in that order. *)
Definition push_all {remote} (calls : list pusher_call) (w : world remote) : world remote :=
  {| the_remote := the_remote w; pushed := pushed w ++ calls;
     temp_files := temp_files w; slept := slept w |}.

Definition write_temp {remote} (name text : string) (w : world remote) : world remote :=
  {| the_remote := the_remote w; pushed := pushed w;
     temp_files := dict_set (temp_files w) name text; slept := slept w |}.

(** [time.sleep(n)] *)
Definition sleep {remote} `{Api remote} (n : nat) (w : world remote) : world remote :=
  {| the_remote := elapse n (the_remote w); pushed := pushed w;
     temp_files := temp_files w; slept := slept w + n |}.

(** [obj['state']] and [obj.state] *)
Definition getitem_state (a : ServerArtifact) : string := sa_state a.
Definition getitem_id (a : ServerArtifact) : string := sa_id a.
Definition getattr_state (a : ServerArtifact) : result string :=
  if sa_attrs a then Ok (sa_state a) else Raise NoAttributeError.
Definition getattr_id (a : ServerArtifact) : result string :=
  if sa_attrs a then Ok (sa_id a) else Raise NoIdAttributeError.

(** How a call of [wait] stands after a number of turns of its loop. *)
Inductive outcome : Type :=
| Returned
| Raised (e : exn)
| Blocked.

(* ================================================================= *)
(** ** LocalArtifact *)

Module LocalArtifact.
Section Defs.
Context {os : Platform} {remote : Type} {api : Api remote}.

Record t : Type := {
  _is_user_created : bool;
  _local_manifest : LocalArtifactManifestV1.t;
  _server_artifact : option ServerArtifact
}.

(** The api and the file pusher are the ones of the surrounding
    [world]. *)
Definition __init__ (paths : user_paths) (metadata : option json)
           (is_user_created : bool) : result t :=
  manifest <- LocalArtifactManifestV1.__init__ paths metadata ;;
  Ok {| _is_user_created := is_user_created;
        _local_manifest := manifest;
        _server_artifact := None |}.

Definition set_server_artifact (self : t) (a : ServerArtifact) : t :=
  {| _is_user_created := _is_user_created self;
     _local_manifest := _local_manifest self;
     _server_artifact := Some a |}.

(** One turn of the loop of [save] over the manifest's entries. *)
Definition push_entry (self : t) (version_id : string) (entry : LocalArtifactEntry)
           (w : world remote) : result unit * world remote :=
  if (path entry =? ARTIFACT_METADATA_FILENAME)%string then
    let name := temp_name (length (temp_files w)) in
    let w := push (named_temp_file name) w in
    match LocalArtifactManifestV1._metadata (_local_manifest self) with
    | None => (Raise (AttributeError "'NoneType' object has no attribute 'dump'"), w)
    | Some doc =>
        match ArtifactMetadata.dump doc with
        | Raise e => (Raise e, w)
        | Ok text =>
            (Ok tt, push (file_changed (path entry) (Some name) version_id)
                         (write_temp name text w))
        end
    end
  else
    (Ok tt, push (file_changed (path entry) (local_path entry) version_id) w).

Fixpoint push_entries (self : t) (version_id : string)
         (entries : list LocalArtifactEntry) (w : world remote)
  : result unit * world remote :=
  match entries with
  | [] => (Ok tt, w)
  | entry :: rest =>
      match push_entry self version_id entry w with
      | (Ok _, w') => push_entries self version_id rest w'
      | (Raise e, w') => (Raise e, w')
      end
  end.

(** The version the remote hands out for this coordinator under [name]. *)
Definition created_version (self : t) (name : string) (w : world remote)
  : ServerArtifact * remote :=
  let (artifact_id, r) := create_artifact name (the_remote w) in
  create_artifact_version artifact_id
    (LocalArtifactManifestV1.digest (_local_manifest self))
    (json_dumps (LocalArtifactManifestV1.metadata (_local_manifest self)))
    (_is_user_created self) r.

Definition save (name : string) (self : t) (w : world remote)
  : result ServerArtifact * t * world remote :=
  let (server_artifact, r) := created_version self name w in
  let self := set_server_artifact self server_artifact in
  let w := set_remote w r in
  if (getitem_state server_artifact =? "COMMITTED")%string then
    (Ok server_artifact, self, w)
  else if negb (getitem_state server_artifact =? "PENDING")%string then
    (Raise UnexpectedStateError, self, w)
  else
    match push_entries self (getitem_id server_artifact)
                       (LocalArtifactManifestV1.entries (_local_manifest self)) w with
    | (Raise e, w') => (Raise e, self, w')
    | (Ok _, w') =>
        (Ok server_artifact, self,
         push (commit_artifact (getitem_id server_artifact)) w')
    end.

Definition commit (self : t) (w : world remote) : result unit * world remote :=
  match _server_artifact self with
  | None => (Raise NoneTypeIdError, w)
  | Some a =>
      match getattr_id a with
      | Raise e => (Raise e, w)
      | Ok version_id =>
          (Ok tt, set_remote w (commit_artifact_version version_id (the_remote w)))
      end
  end.

(** The loop of [wait], for at most [fuel] sleeps. *)
Fixpoint wait_loop (fuel : nat) (a : ServerArtifact) (w : world remote)
  : outcome * world remote :=
  match getattr_state a with
  | Raise e => (Raised e, w)
  | Ok s =>
      if (s =? "READY")%string then (Returned, w)
      else match fuel with
           | O => (Blocked, w)
           | S n => wait_loop n a (sleep 2 w)
           end
  end.

Definition wait (fuel : nat) (self : t) (w : world remote) : outcome * world remote :=
  match _server_artifact self with
  | None => (Raised NotSavedError, w)
  | Some a => wait_loop fuel a w
  end.
End Defs.
End LocalArtifact.

(* ================================================================= *)
(** ** LocalArtifactRead *)

(** The values the [digest] property handles: a string, or a method
    bound to its object that returns one. *)
Inductive pyobj : Type :=
| PyStr (s : string)
| PyBoundMethod (returns : string).

(** [o()] *)
Definition call (o : pyobj) : result pyobj :=
  match o with
  | PyStr _ => Raise NotCallableError
  | PyBoundMethod s => Ok (PyStr s)
  end.

Module LocalArtifactRead.
Section Defs.
Context {os : Platform}.

Record t : Type := {
  _artifact_dir : string;
  _local_manifest : LocalArtifactManifestV1.t
}.

Definition __init__ (name : string) (p : user_paths) : result t :=
  match p with
  | PathSingle p =>
      artifact_dir <- (if isdir p then Ok p
                       else if isfile p then Ok (dirname p)
                       else Raise PathTypeError) ;;
      manifest <- LocalArtifactManifestV1.__init__ (PathSingle p) None ;;
      Ok {| _artifact_dir := artifact_dir; _local_manifest := manifest |}
  | _ => Raise PathTypeError
  end.

(** The property [digest]: the manifest's digest, called. *)
Definition digest (self : t) : result pyobj :=
  call (PyStr (LocalArtifactManifestV1.digest (_local_manifest self))).

Definition download (self : t) : string := _artifact_dir self.
End Defs.
End LocalArtifactRead.

(* ================================================================= *)
(** ** A concrete platform and remote *)

Module Demo.
Definition quote : string := String (ascii_of_nat 34) EmptyString.

#[export] Instance encoder : JsonEncoder := {|
  encode_basestring := fun s => quote ++ s ++ quote;
  item_separator := ",";
  key_separator := ": "
|}.

(** A directory [/data] with three files, one of them the metadata
    file; a file's md5 stands for its content. *)
#[export] Instance os : Platform := {|
  isdir := fun p => (p =? "/data")%string;
  isfile := fun p => existsb (String.eqb p)
              ["/data/a.txt"; "/data/b.txt"; "/data/artifact-metadata.json";
               "/other/a.txt"];
  walk := fun p =>
    if (p =? "/data")%string
    then [("/data", ["a.txt"; "artifact-metadata.json"; "b.txt"])] else [];
  path_join := fun d f => d ++ "/" ++ f;
  relpath := fun p root => basename p;
  abspath := fun p => p;
  dirname := fun p => "/data";
  md5_file := fun p => Ok ("md5-of-file:" ++ p);
  md5_text := fun s => "md5-of-text:" ++ s;
  json_load := fun p =>
    if (p =? "/data/artifact-metadata.json")%string
    then Ok (JDict [("b", JInt 1); ("a", JList [JFloat (Finite "2.5"); JNull])])
    else Raise IOError;
  json_dumps := fun o => match o with None => "null" | Some _ => "{...}" end;
  temp_name := fun n => "/tmp/tmp" ++ int_repr (Z.of_nat n);
  json_encoder := encoder
|}.

(** A remote whose single version [v1] is in the state the remote
    itself is in: it answers every creation call with that state, is
    committed by a commit call, and becomes READY as soon as a second
    has passed. *)
#[export] Instance api : Api string := {|
  create_artifact := fun name r => ("artifact-" ++ name, r);
  create_artifact_version := fun _ _ _ _ r =>
    ({| sa_id := "v1"; sa_state := r; sa_attrs := true |}, r);
  commit_artifact_version := fun _ _ => "COMMITTED";
  version_state := fun _ r => r;
  elapse := fun n r => match n with O => r | S _ => "READY" end
|}.

Definition world0 (state : string) : world string :=
  {| the_remote := state; pushed := []; temp_files := []; slept := 0 |}.

Definition two_files : dict string :=
  [("a.txt", "/data/a.txt"); ("b.txt", "/data/b.txt")].

Definition manifest0 : LocalArtifactManifestV1.t :=
  {| LocalArtifactManifestV1._path_specs := two_files;
     LocalArtifactManifestV1._metadata := None;
     LocalArtifactManifestV1._local_entries :=
       [ {| path := "a.txt"; hash := "md5-of-file:/data/a.txt";
            local_path := Some "/data/a.txt" |};
         {| path := "b.txt"; hash := "md5-of-file:/data/b.txt";
            local_path := Some "/data/b.txt" |} ];
     LocalArtifactManifestV1._digest :=
       ArtifactManifestV1_digest
         [ {| path := "a.txt"; hash := "md5-of-file:/data/a.txt";
              local_path := Some "/data/a.txt" |};
           {| path := "b.txt"; hash := "md5-of-file:/data/b.txt";
              local_path := Some "/data/b.txt" |} ] |}.

(** The coordinator [LocalArtifact(api, two_files)] before any call. *)
Definition fresh : LocalArtifact.t :=
  {| LocalArtifact._is_user_created := false;
     LocalArtifact._local_manifest := manifest0;
     LocalArtifact._server_artifact := None |}.

(** The same coordinator after [save], for a version in [state]. *)
Definition after_save (state : string) : LocalArtifact.t :=
  snd (fst (LocalArtifact.save "model" fresh (world0 state))).

Definition world_after_save (state : string) : world string :=
  snd (LocalArtifact.save "model" fresh (world0 state)).

Definition with_metadata_file : dict string :=
  [("a.txt", "/data/a.txt");
   ("artifact-metadata.json", "/data/artifact-metadata.json");
   ("b.txt", "/data/b.txt")].

(** The same platform with [/data/b.txt] unreadable. *)
Definition os_unreadable : Platform := {|
  isdir := @isdir os;
  isfile := @isfile os;
  walk := @walk os;
  path_join := @path_join os;
  relpath := @relpath os;
  abspath := @abspath os;
  dirname := @dirname os;
  md5_file := fun p => if (p =? "/data/b.txt")%string then Raise IOError
                       else @md5_file os p;
  md5_text := @md5_text os;
  json_load := @json_load os;
  json_dumps := @json_dumps os;
  temp_name := @temp_name os;
  json_encoder := encoder
|}.

Definition metadata_file_only : dict string :=
  [("artifact-metadata.json", "/data/artifact-metadata.json")].

Definition doc_file : json :=
  JDict [("b", JInt 1); ("a", JList [JFloat (Finite "2.5"); JNull])].

Definition doc_nan : json := JDict [("loss", JList [JInt 3; JFloat NaN])].
Definition doc1 : json :=
  JDict [("b", JInt 1); ("a", JDict [("y", JNull); ("x", JBool true)])].
Definition doc2 : json :=
  JDict [("a", JDict [("x", JBool true); ("y", JNull)]); ("b", JInt 1)].
End Demo.

(* ================================================================= *)
(** * Properties *)

(** ** The error monad *)

Lemma bind_ok {A B} (c : result A) (k : A -> result B) (b : B) :
  bind c k = Ok b -> exists a, c = Ok a /\ k a = Ok b.
Proof.
  destruct c as [a|e]; simpl; intros H; [eauto | discriminate].
Qed.

Lemma mapM_ok_Forall2 {A B} (f : A -> result B) (l : list A) (r : list B) :
  mapM f l = Ok r -> Forall2 (fun x y => f x = Ok y) l r.
Proof.
  revert r; induction l as [|x t IH]; simpl; intros r H.
  - inversion H; constructor.
  - destruct (f x) eqn:Ex; [|discriminate].
    destruct (mapM f t) eqn:E; [|discriminate].
    inversion H; subst. constructor; auto.
Qed.

(** A loop that succeeds on a list succeeds on each of its
    rearrangements, with the results rearranged alike. *)
Lemma mapM_Permutation {A B} (f : A -> result B) (l1 l2 : list A) :
  Permutation l1 l2 ->
  forall r1, mapM f l1 = Ok r1 ->
  exists r2, mapM f l2 = Ok r2 /\ Permutation r1 r2.
Proof.
  induction 1 as [|x l l' _ IH|x y l|l l' l'' _ IH1 _ IH2]; simpl; intros r1 H1.
  - inversion H1; eauto.
  - destruct (f x); [|discriminate].
    destruct (mapM f l) as [r|] eqn:E; [|discriminate].
    destruct (IH _ eq_refl) as (r2 & -> & Hp).
    inversion H1; subst. eauto using perm_skip.
  - destruct (f y); [|discriminate].
    destruct (f x); [|discriminate].
    destruct (mapM f l) as [r|]; [|discriminate].
    inversion H1; subst. eauto using perm_swap.
  - destruct (IH1 _ H1) as (r2 & H2 & Hp).
    destruct (IH2 _ H2) as (r3 & H3 & Hp').
    eauto using Permutation_trans.
Qed.

(** A loop whose body raises one exception only fails alike on every
    rearrangement of the list. *)
Lemma mapM_Permutation_raise {A B} (f : A -> result B) (e0 : exn) (l1 l2 : list A) :
  (forall x e, f x = Raise e -> e = e0) ->
  Permutation l1 l2 ->
  forall e, mapM f l1 = Raise e -> mapM f l2 = Raise e0.
Proof.
  intros Hf Hp e H1.
  destruct (mapM f l2) as [r2|e2] eqn:E2.
  - destruct (mapM_Permutation f l2 l1 (Permutation_sym Hp) _ E2) as (r & Hr & _).
    congruence.
  - f_equal. clear - Hf E2.
    induction l2 as [|x t IH]; simpl in E2; [discriminate|].
    destruct (f x) eqn:Ex.
    + destruct (mapM f t); [discriminate|]. inversion E2; subst. now apply IH.
    + inversion E2; subst. eauto.
Qed.

(** ** The order of strings and sorted items *)

Lemma leb_refl (a : string) : String.leb a a = true.
Proof.
  destruct (String.leb_total a a); assumption.
Qed.

Lemma leb_trans (a b c : string) :
  String.leb a b = true -> String.leb b c = true -> String.leb a c = true.
Proof.
  unfold String.leb.
  destruct (String.compare a b) eqn:Hab; try discriminate;
    destruct (String.compare b c) eqn:Hbc; try discriminate; intros _ _.
  - apply String.compare_eq_iff in Hab. subst. now rewrite Hbc.
  - apply String.compare_eq_iff in Hab. subst. now rewrite Hbc.
  - apply String.compare_eq_iff in Hbc. subst. now rewrite Hab.
  - assert (H : String.compare a c = Lt).
    { apply String_as_OT.cmp_lt.
      eapply String_as_OT.lt_trans; apply String_as_OT.cmp_lt; eassumption. }
    now rewrite H.
Qed.

Section SortedItems.
Context {V : Type}.

Lemma insert_item_Permutation (x : string * V) l :
  Permutation (x :: l) (insert_item x l).
Proof.
  induction l as [|y t IH]; simpl; [reflexivity|].
  destruct (String.leb (fst x) (fst y)); [reflexivity|].
  rewrite perm_swap. now apply perm_skip.
Qed.

Lemma sorted_items_Permutation (l : list (string * V)) :
  Permutation l (sorted_items l).
Proof.
  induction l as [|x t IH]; simpl; [reflexivity|].
  rewrite <- insert_item_Permutation. now apply perm_skip.
Qed.

Lemma insert_item_sorted (x : string * V) l :
  StronglySorted key_le l -> StronglySorted key_le (insert_item x l).
Proof.
  induction 1 as [|y t Hs IH Hy]; simpl.
  - repeat constructor.
  - destruct (String.leb (fst x) (fst y)) eqn:E.
    + constructor; [constructor; assumption|].
      constructor; [exact E|].
      eapply Forall_impl; [|exact Hy].
      intros z Hz. unfold key_le in *. eapply leb_trans; eassumption.
    + constructor; [exact IH|].
      eapply Permutation_Forall; [apply insert_item_Permutation|].
      constructor; [|exact Hy].
      unfold key_le. destruct (String.leb_total (fst x) (fst y)); congruence.
Qed.

Lemma sorted_items_sorted (l : list (string * V)) :
  StronglySorted key_le (sorted_items l).
Proof.
  induction l; simpl; [constructor | now apply insert_item_sorted].
Qed.

Lemma same_key_same_item (l : list (string * V)) a b :
  NoDup (map fst l) -> In a l -> In b l -> fst a = fst b -> a = b.
Proof.
  induction l as [|x t IH]; simpl; [contradiction|].
  intros Hnd Ha Hb Hk. inversion Hnd as [|? ? Hx Ht]; subst.
  destruct Ha as [->|Ha], Hb as [->|Hb]; auto.
  - exfalso. apply Hx. rewrite Hk. now apply in_map.
  - exfalso. apply Hx. rewrite <- Hk. now apply in_map.
Qed.

Lemma sorted_Permutation_eq (l1 l2 : list (string * V)) :
  StronglySorted key_le l1 -> StronglySorted key_le l2 ->
  Permutation l1 l2 -> NoDup (map fst l1) -> l1 = l2.
Proof.
  intros H1; revert l2.
  induction H1 as [|x t Hs IH Hx]; intros l2 H2 Hp Hnd.
  - apply Permutation_nil in Hp. now subst.
  - destruct H2 as [|y u Hu Hy].
    + apply Permutation_sym, Permutation_nil in Hp. discriminate.
    + assert (x = y) as ->.
      { apply (same_key_same_item (x :: t)); auto.
        - now left.
        - eapply Permutation_in; [apply Permutation_sym; exact Hp | now left].
        - assert (Hxy : key_le x y).
          { assert (Hin : In y (x :: t))
              by (eapply Permutation_in; [apply Permutation_sym; exact Hp | now left]).
            destruct Hin as [->|Hin]; [apply leb_refl|].
            rewrite Forall_forall in Hx. now apply Hx. }
          assert (Hyx : key_le y x).
          { assert (Hin : In x (y :: u))
              by (eapply Permutation_in; [exact Hp | now left]).
            destruct Hin as [->|Hin]; [apply leb_refl|].
            rewrite Forall_forall in Hy. now apply Hy. }
          now apply String.leb_antisym. }
      f_equal. apply IH; auto.
      * eapply Permutation_cons_inv; exact Hp.
      * now inversion Hnd.
Qed.

(** Sorting forgets the order in which a dictionary lists its items. *)
Lemma sorted_items_order_free (l1 l2 : list (string * V)) :
  Permutation l1 l2 -> NoDup (map fst l1) -> sorted_items l1 = sorted_items l2.
Proof.
  intros Hp Hnd. apply sorted_Permutation_eq.
  - apply sorted_items_sorted.
  - apply sorted_items_sorted.
  - rewrite <- (sorted_items_Permutation l1), <- (sorted_items_Permutation l2).
    exact Hp.
  - eapply Permutation_NoDup; [|exact Hnd].
    apply Permutation_map, sorted_items_Permutation.
Qed.
End SortedItems.

Lemma nodupb_NoDup (l : list string) : nodupb l = true <-> NoDup l.
Proof.
  induction l as [|x t IH]; simpl.
  - split; [constructor | reflexivity].
  - rewrite andb_true_iff, negb_true_iff, IH. split.
    + intros [Hx Ht]. constructor; [|assumption].
      intros Hin. apply not_true_iff_false in Hx. apply Hx.
      apply existsb_exists. exists x. split; [assumption | apply String.eqb_refl].
    + intros H. inversion H as [|? ? Hx Ht]; subst. split; [|assumption].
      apply not_true_iff_false. intros He. apply existsb_exists in He.
      destruct He as (y & Hy & Hxy). apply String.eqb_eq in Hxy. now subst.
Qed.

(** ** The canonical serialization *)

Lemma mapM_raise_from {A B} (f : A -> result B) (e0 : exn) (l : list A) :
  Forall (fun x => forall e, f x = Raise e -> e = e0) l ->
  forall e, mapM f l = Raise e -> e = e0.
Proof.
  induction 1 as [|x t Hx _ IH]; simpl; intros e H; [discriminate|].
  destruct (f x) eqn:Ex.
  - destruct (mapM f t); [discriminate|]. inversion H; subst. now apply IH.
  - inversion H; subst. now apply Hx.
Qed.

Lemma mapM_raise_at {A B} (f : A -> result B) (l : list A) (x : A) (e : exn) :
  In x l -> f x = Raise e -> exists e', mapM f l = Raise e'.
Proof.
  induction l as [|y t IH]; simpl; [contradiction|].
  intros [->|Hin] Hx.
  - rewrite Hx. eauto.
  - destruct (f y); [|eauto].
    destruct (IH Hin Hx) as (e' & ->). eauto.
Qed.

Lemma mapM_all_ok {A B} (f : A -> result B) (l : list A) :
  Forall (fun x => exists y, f x = Ok y) l -> exists r, mapM f l = Ok r.
Proof.
  induction 1 as [|x t (y & Hy) _ (r & IH)]; simpl; [eauto|].
  rewrite Hy, IH. eauto.
Qed.

Section DumpFacts.
Context {enc : JsonEncoder}.

Lemma iterencode_list (level : nat) (l : list json) :
  l <> [] ->
  iterencode level (JList l)
  = (chunks <- mapM (iterencode (S level)) l ;; Ok (render_list level chunks)).
Proof.
  destruct l; [congruence | reflexivity].
Qed.

Lemma iterencode_dict (level : nat) (d : list (string * json)) :
  d <> [] ->
  iterencode level (JDict d)
  = (items <- mapM (encode_item level) d ;;
     Ok (render_dict level (sorted_items items))).
Proof.
  destruct d; [congruence | reflexivity].
Qed.

Lemma encode_item_keys (level : nat) (d : list (string * json)) items :
  mapM (encode_item level) d = Ok items -> map fst items = map fst d.
Proof.
  intros H. apply mapM_ok_Forall2 in H.
  induction H as [|kv it d' items' Hkv _ IH]; simpl; [reflexivity|].
  f_equal; [|exact IH].
  unfold encode_item in Hkv.
  destruct (iterencode (S level) (snd kv)); simpl in Hkv; [|discriminate].
  now inversion Hkv.
Qed.

(** The encoder raises nothing but [SerializationError]. *)
Lemma iterencode_raises (o : json) :
  forall level e, iterencode level o = Raise e -> e = SerializationError.
Proof.
  induction o as [| [|] | | [| | |] | |l IH|d IH] using json_nested_ind;
    intros level e H; try (simpl in H; (discriminate || now inversion H)).
  - destruct l as [|x t]; [discriminate|].
    rewrite iterencode_list in H by discriminate.
    destruct (mapM (iterencode (S level)) (x :: t)) eqn:E; [discriminate|].
    simpl in H. inversion H; subst.
    eapply mapM_raise_from; [|exact E].
    eapply Forall_impl; [|exact IH]. intros o Ho e'. apply Ho.
  - destruct d as [|x t]; [discriminate|].
    rewrite iterencode_dict in H by discriminate.
    destruct (mapM (encode_item level) (x :: t)) eqn:E; [discriminate|].
    simpl in H. inversion H; subst.
    eapply mapM_raise_from; [|exact E].
    eapply Forall_impl; [|exact IH]. intros kv Hkv e'.
    unfold encode_item.
    destruct (iterencode (S level) (snd kv)) eqn:Ev; simpl; [discriminate|].
    intros He; inversion He; subst. eapply Hkv; eassumption.
Qed.

(** A NaN or an infinity anywhere in the document makes the encoder
    raise; without one it returns a text. *)
Lemma iterencode_nonfinite (o : json) :
  forall level,
    if has_nonfinite o then iterencode level o = Raise SerializationError
    else exists text, iterencode level o = Ok text.
Proof.
  induction o as [| [|] | | [| | |] | |l IH|d IH] using json_nested_ind;
    intros level; try solve [simpl; eauto].
  - destruct l as [|x t]; [simpl; eauto|].
    rewrite iterencode_list by discriminate.
    change (has_nonfinite (JList (x :: t))) with (existsb has_nonfinite (x :: t)).
    destruct (existsb has_nonfinite (x :: t)) eqn:E.
    + apply existsb_exists in E. destruct E as (y & Hin & Hy).
      rewrite Forall_forall in IH. specialize (IH y Hin (S level)).
      rewrite Hy in IH.
      destruct (mapM_raise_at _ _ _ _ Hin IH) as (e' & He').
      rewrite He'. simpl. f_equal.
      eapply mapM_raise_from; [|exact He'].
      apply Forall_forall. intros z _ e. apply iterencode_raises.
    + destruct (mapM_all_ok (iterencode (S level)) (x :: t)) as (r & ->);
        [|simpl; eauto].
      apply Forall_forall. intros y Hin.
      rewrite Forall_forall in IH. specialize (IH y Hin (S level)).
      assert (Hy : has_nonfinite y = false).
      { destruct (has_nonfinite y) eqn:Hy; [|reflexivity].
        assert (existsb has_nonfinite (x :: t) = true)
          by (apply existsb_exists; eauto).
        congruence. }
      now rewrite Hy in IH.
  - destruct d as [|x t]; [simpl; eauto|].
    rewrite iterencode_dict by discriminate.
    change (has_nonfinite (JDict (x :: t)))
      with (existsb (fun kv => has_nonfinite (snd kv)) (x :: t)).
    destruct (existsb (fun kv => has_nonfinite (snd kv)) (x :: t)) eqn:E.
    + apply existsb_exists in E. destruct E as (y & Hin & Hy).
      rewrite Forall_forall in IH. specialize (IH y Hin (S level)).
      rewrite Hy in IH.
      assert (Hitem : encode_item level y = Raise SerializationError)
        by (unfold encode_item; now rewrite IH).
      destruct (mapM_raise_at _ _ _ _ Hin Hitem) as (e' & He').
      rewrite He'. simpl. f_equal.
      eapply mapM_raise_from; [|exact He'].
      apply Forall_forall. intros z _ e. unfold encode_item.
      destruct (iterencode (S level) (snd z)) eqn:Ez; simpl; [discriminate|].
      intros H; inversion H; subst. eapply iterencode_raises; eassumption.
    + destruct (mapM_all_ok (encode_item level) (x :: t)) as (r & ->);
        [|simpl; eauto].
      apply Forall_forall. intros y Hin.
      rewrite Forall_forall in IH. specialize (IH y Hin (S level)).
      assert (Hy : has_nonfinite (snd y) = false).
      { destruct (has_nonfinite (snd y)) eqn:Hy; [|reflexivity].
        assert (existsb (fun kv => has_nonfinite (snd kv)) (x :: t) = true)
          by (apply existsb_exists; eauto).
        congruence. }
      rewrite Hy in IH. destruct IH as (text & Ht).
      unfold encode_item. rewrite Ht. simpl. eauto.
Qed.
End DumpFacts.

Section Canonical.
Context {enc : JsonEncoder}.

Lemma encode_item_raises (level : nat) (kv : string * json) (e : exn) :
  encode_item level kv = Raise e -> e = SerializationError.
Proof.
  unfold encode_item.
  destruct (iterencode (S level) (snd kv)) eqn:E; simpl; [discriminate|].
  intros H; inversion H; subst. eapply iterencode_raises; eassumption.
Qed.

(** The members of a dictionary, encoded and sorted, do not depend on
    the order in which the dictionary lists them. *)
Lemma sorted_members_order_free (level : nat) (d d' : list (string * json)) :
  Permutation d d' -> NoDup (map fst d) ->
  (items <- mapM (encode_item level) d ;;
   Ok (render_dict level (sorted_items items)))
  = (items <- mapM (encode_item level) d' ;;
     Ok (render_dict level (sorted_items items))).
Proof.
  intros Hp Hnd.
  destruct (mapM (encode_item level) d) as [r|e] eqn:E.
  - destruct (mapM_Permutation _ _ _ Hp _ E) as (r' & -> & Hr).
    simpl. do 2 f_equal. apply sorted_items_order_free; [exact Hr|].
    now rewrite (encode_item_keys _ _ _ E).
  - rewrite (mapM_Permutation_raise _ SerializationError _ _
               (encode_item_raises level) Hp _ E).
    simpl. f_equal.
    eapply mapM_raise_from; [|exact E].
    apply Forall_forall. intros x _. apply encode_item_raises.
Qed.

Lemma iterencode_same_doc :
  (forall d1 d2, same_doc d1 d2 ->
     distinct_keys d1 = true ->
     forall level, iterencode level d1 = iterencode level d2)
  /\ (forall l1 l2, same_elems l1 l2 ->
        forallb distinct_keys l1 = true ->
        forall level, mapM (iterencode level) l1 = mapM (iterencode level) l2)
  /\ (forall d1 d2, same_items d1 d2 ->
        forallb (fun kv => distinct_keys (snd kv)) d1 = true ->
        forall level, mapM (encode_item level) d1 = mapM (encode_item level) d2).
Proof.
  apply same_doc_mutind; try reflexivity.
  - intros l1 l2 H IH Hwf level. simpl in Hwf.
    destruct l1, l2; try (inversion H; fail); [reflexivity|].
    rewrite !iterencode_list by discriminate.
    now rewrite (IH Hwf (S level)).
  - intros d1 d1' d2 Hp H IH Hwf level.
    simpl in Hwf. apply andb_true_iff in Hwf. destruct Hwf as [Hnd Hwf].
    apply nodupb_NoDup in Hnd.
    assert (Hwf' : forallb (fun kv => distinct_keys (snd kv)) d1' = true).
    { rewrite forallb_forall in *. intros x Hx. apply Hwf.
      eapply Permutation_in; [apply Permutation_sym; exact Hp | exact Hx]. }
    destruct d1 as [|x1 t1].
    + apply Permutation_nil in Hp. subst. inversion H. reflexivity.
    + destruct d1' as [|x1' t1'];
        [apply Permutation_sym, Permutation_nil in Hp; discriminate|].
      destruct d2 as [|x2 t2]; [inversion H|].
      rewrite !iterencode_dict by discriminate.
      rewrite <- (IH Hwf' level).
      now apply sorted_members_order_free.
  - intros x y l1 l2 _ IHx _ IHl Hwf level.
    simpl in Hwf. apply andb_true_iff in Hwf. destruct Hwf as [Hx Hl].
    simpl. now rewrite (IHx Hx level), (IHl Hl level).
  - intros k x y d1 d2 _ IHx _ IHd Hwf level.
    simpl in Hwf. apply andb_true_iff in Hwf. destruct Hwf as [Hx Hd].
    simpl. unfold encode_item at 1 3. simpl.
    now rewrite (IHx Hx (S level)), (IHd Hd level).
Qed.
End Canonical.

(** ** Dictionaries *)

Section DictFacts.
Context {V : Type}.
Implicit Types (d : dict V) (k : string) (v : V).

Lemma dict_get_In d k v : dict_get d k = Some v -> In (k, v) d.
Proof.
  induction d as [|[k' v'] t IH]; simpl; [discriminate|].
  destruct (String.eqb_spec k' k) as [->|Hne]; intros H.
  - inversion H; subst. now left.
  - right. now apply IH.
Qed.

Lemma dict_get_None d k : dict_get d k = None <-> ~ In k (keys d).
Proof.
  induction d as [|[k' v'] t IH]; simpl.
  - split; [intros _ [] | reflexivity].
  - destruct (String.eqb_spec k' k) as [->|Hne].
    + split; [discriminate | intros H; exfalso; apply H; now left].
    + rewrite IH. split; [intros H [E|E]; auto | intros H E; apply H; now right].
Qed.

Lemma dict_mem_In d k : dict_mem k d = true <-> In k (keys d).
Proof.
  unfold dict_mem. destruct (dict_get d k) as [v|] eqn:E.
  - split; [intros _ | reflexivity].
    apply dict_get_In in E. change k with (fst (k, v)). now apply in_map.
  - apply dict_get_None in E. split; [discriminate | contradiction].
Qed.

Lemma In_dict_get d k v : NoDup (keys d) -> In (k, v) d -> dict_get d k = Some v.
Proof.
  intros Hnd Hin. destruct (dict_get d k) as [v'|] eqn:E.
  - apply dict_get_In in E.
    assert (H : (k, v') = (k, v)) by (eapply same_key_same_item; eauto).
    now inversion H.
  - apply dict_get_None in E. exfalso. apply E.
    change k with (fst (k, v)). now apply in_map.
Qed.

(** Looking a key up does not depend on the order of the items. *)
Lemma dict_get_Permutation d d' k :
  Permutation d d' -> NoDup (keys d) -> dict_get d k = dict_get d' k.
Proof.
  intros Hp Hnd.
  assert (Hnd' : NoDup (keys d'))
    by (eapply Permutation_NoDup; [apply Permutation_map; exact Hp | exact Hnd]).
  destruct (dict_get d k) as [v|] eqn:E.
  - symmetry. apply In_dict_get; [exact Hnd'|].
    eapply Permutation_in; [exact Hp | now apply dict_get_In].
  - symmetry. apply dict_get_None. rewrite dict_get_None in E.
    intros Hin. apply E.
    eapply Permutation_in; [apply Permutation_sym, Permutation_map; exact Hp | exact Hin].
Qed.

Lemma dict_set_fresh d k v : dict_mem k d = false -> dict_set d k v = (d ++ [(k, v)])%list.
Proof.
  unfold dict_mem. induction d as [|[k' v'] t IH]; simpl; [reflexivity|].
  destruct (String.eqb_spec k' k) as [->|Hne]; [discriminate|].
  intros H. now rewrite IH.
Qed.

Lemma dict_mem_set d k k' v :
  dict_mem k (dict_set d k' v) = (k' =? k)%string || dict_mem k d.
Proof.
  unfold dict_mem. induction d as [|[k0 v0] t IH]; simpl.
  - now destruct (k' =? k)%string.
  - destruct (String.eqb_spec k0 k') as [->|Hne]; simpl.
    + now destruct (k' =? k)%string.
    + destruct (String.eqb_spec k0 k) as [->|Hne'].
      * now rewrite orb_true_r.
      * exact IH.
Qed.

Lemma dict_remove_Permutation d d' k :
  Permutation d d' -> Permutation (dict_remove d k) (dict_remove d' k).
Proof.
  unfold dict_remove.
  induction 1 as [|x l l' _ IH|x y l|l l' l'' _ IH1 _ IH2]; simpl.
  - constructor.
  - destruct (negb (fst x =? k)%string); [now apply perm_skip | exact IH].
  - destruct (negb (fst x =? k)%string), (negb (fst y =? k)%string);
      try reflexivity. apply perm_swap.
  - eapply Permutation_trans; eassumption.
Qed.

Lemma dict_remove_keys d k :
  keys (dict_remove d k) = filter (fun k' => negb (k' =? k)%string) (keys d).
Proof.
  unfold dict_remove, keys. induction d as [|x t IH]; simpl; [reflexivity|].
  destruct (negb (fst x =? k)%string); simpl; now rewrite IH.
Qed.

Lemma dict_remove_absent d k : ~ In k (keys (dict_remove d k)).
Proof.
  rewrite dict_remove_keys. intros H. apply filter_In in H.
  destruct H as [_ H]. now rewrite String.eqb_refl in H.
Qed.

Lemma dict_remove_NoDup d k : NoDup (keys d) -> NoDup (keys (dict_remove d k)).
Proof.
  rewrite dict_remove_keys. apply NoDup_filter.
Qed.
End DictFacts.

(** ** Path specs *)

Section PathSpecFacts.
Context {os : Platform}.

(** A name already in the dictionary stops the loop at the first path
    that carries it. *)
Lemma add_paths_clash (l : list string) (d : dict string) (name : string) :
  In name (map basename l) -> dict_mem name d = true ->
  add_paths l d = Raise DuplicateNameError.
Proof.
  revert d. induction l as [|p rest IH]; simpl; intros d Hin Hmem; [contradiction|].
  destruct (dict_mem (basename p) d) eqn:E; [reflexivity|].
  destruct Hin as [<-|Hin]; [congruence|].
  apply IH; [exact Hin|].
  rewrite dict_mem_set, Hmem. apply orb_true_r.
Qed.

Lemma add_paths_shared (l1 l2 l3 : list string) (p q : string) (d : dict string) :
  basename p = basename q ->
  add_paths (l1 ++ p :: l2 ++ q :: l3) d = Raise DuplicateNameError.
Proof.
  intros Hpq. revert d. induction l1 as [|x t IH]; simpl; intros d.
  - destruct (dict_mem (basename p) d); [reflexivity|].
    apply add_paths_clash with (name := basename q).
    + rewrite map_app. apply in_or_app. right. now left.
    + rewrite dict_mem_set, Hpq, String.eqb_refl. reflexivity.
  - destruct (dict_mem (basename x) d); [reflexivity | apply IH].
Qed.

Lemma add_paths_distinct (l : list string) (d : dict string) :
  NoDup (keys d ++ map basename l) ->
  add_paths l d = Ok (d ++ map spec_of_path l)%list.
Proof.
  revert d. induction l as [|p rest IH]; simpl; intros d Hnd.
  - now rewrite app_nil_r.
  - assert (Hp : dict_mem (basename p) d = false).
    { apply not_true_iff_false. rewrite dict_mem_In. intros Hin.
      apply NoDup_remove_2 in Hnd. apply Hnd. apply in_or_app. now left. }
    rewrite Hp, (dict_set_fresh _ _ _ Hp), IH.
    + now rewrite <- app_assoc.
    + unfold keys in *. rewrite map_app, <- app_assoc. exact Hnd.
Qed.

Lemma add_paths_ok (l : list string) (d d' : dict string) :
  add_paths l d = Ok d' -> NoDup (keys d) -> NoDup (keys d ++ map basename l).
Proof.
  revert d. induction l as [|p rest IH]; simpl; intros d H Hnd.
  - now rewrite app_nil_r.
  - destruct (dict_mem (basename p) d) eqn:Hp; [discriminate|].
    rewrite (dict_set_fresh _ _ _ Hp) in H.
    apply IH in H.
    + unfold keys in *. rewrite map_app, <- app_assoc in H. exact H.
    + unfold keys. rewrite map_app. simpl.
      eapply Permutation_NoDup; [apply Permutation_cons_append|].
      constructor; [|exact Hnd].
      apply not_true_iff_false in Hp. now rewrite dict_mem_In in Hp.
Qed.
End PathSpecFacts.

(** ** Manifest construction *)

Section ManifestFacts.
Context {os : Platform}.
Import LocalArtifactManifestV1.

Lemma file_entry_paths (specs : dict string) (files : list LocalArtifactEntry) :
  mapM file_entry specs = Ok files -> map path files = keys specs.
Proof.
  intros H. apply mapM_ok_Forall2 in H.
  induction H as [|kv e specs' files' Hkv _ IH]; simpl; [reflexivity|].
  f_equal; [|exact IH].
  unfold file_entry in Hkv.
  destruct (hash_file (snd kv)); simpl in Hkv; [|discriminate].
  now inversion Hkv.
Qed.

Lemma file_entry_local (specs : dict string) (files : list LocalArtifactEntry) :
  mapM file_entry specs = Ok files ->
  Forall (fun e => exists p, local_path e = Some p) files.
Proof.
  intros H. apply mapM_ok_Forall2 in H.
  induction H as [|kv e specs' files' Hkv _ IH]; constructor; [|exact IH].
  unfold file_entry in Hkv.
  destruct (hash_file (snd kv)); simpl in Hkv; [|discriminate].
  inversion Hkv; subst; simpl. eauto.
Qed.

Lemma given_metadata_some (md : json) :
  md <> JNull -> given_metadata (Some md) = Some md.
Proof.
  destruct md; simpl; congruence.
Qed.

(** A null metadata argument is no argument. *)
Lemma init_null_metadata (paths : user_paths) :
  LocalArtifactManifestV1.__init__ paths (Some JNull)
  = LocalArtifactManifestV1.__init__ paths None.
Proof.
  reflexivity.
Qed.

(** What [take_metadata] leaves: the reserved name is in the path specs
    only when there is no metadata. *)
Lemma take_metadata_absent (specs specs' : dict string) (md md' : option json) :
  take_metadata specs md = Ok (specs', md') ->
  md' <> None -> ~ In ARTIFACT_METADATA_FILENAME (keys specs').
Proof.
  unfold take_metadata.
  destruct (dict_get specs ARTIFACT_METADATA_FILENAME) as [local|] eqn:E.
  - destruct md; [discriminate|].
    destruct (ArtifactMetadata.from_file local); simpl; [|discriminate].
    intros H _. inversion H; subst. apply dict_remove_absent.
  - intros H _. inversion H; subst. now apply dict_get_None.
Qed.

Lemma take_metadata_NoDup (specs specs' : dict string) (md md' : option json) :
  take_metadata specs md = Ok (specs', md') ->
  NoDup (keys specs) -> NoDup (keys specs').
Proof.
  unfold take_metadata.
  destruct (dict_get specs ARTIFACT_METADATA_FILENAME) as [local|].
  - destruct md; [discriminate|].
    destruct (ArtifactMetadata.from_file local); simpl; [|discriminate].
    intros H. inversion H; subst. apply dict_remove_NoDup.
  - intros H. now inversion H; subst.
Qed.

Lemma take_metadata_Permutation (specs1 specs2 specs1' : dict string)
      (md md' : option json) :
  Permutation specs1 specs2 -> NoDup (keys specs1) ->
  take_metadata specs1 md = Ok (specs1', md') ->
  exists specs2',
    take_metadata specs2 md = Ok (specs2', md') /\ Permutation specs1' specs2'.
Proof.
  intros Hp Hnd. unfold take_metadata.
  rewrite <- (dict_get_Permutation _ _ ARTIFACT_METADATA_FILENAME Hp Hnd).
  destruct (dict_get specs1 ARTIFACT_METADATA_FILENAME) as [local|].
  - destruct md; [discriminate|].
    destruct (ArtifactMetadata.from_file local); simpl; [|discriminate].
    intros H. inversion H; subst. eexists. split; [reflexivity|].
    now apply dict_remove_Permutation.
  - intros H. inversion H; subst. eauto.
Qed.

(** The digest does not depend on the order of the entries. *)
Lemma ArtifactManifestV1_digest_order_free (es1 es2 : list LocalArtifactEntry) :
  Permutation es1 es2 -> NoDup (map path es1) ->
  ArtifactManifestV1_digest es1 = ArtifactManifestV1_digest es2.
Proof.
  intros Hp Hnd. unfold ArtifactManifestV1_digest.
  do 3 f_equal. apply sorted_items_order_free.
  - now apply Permutation_map.
  - now rewrite map_map.
Qed.

Lemma metadata_entries_paths (md : option json) (first : list LocalArtifactEntry) :
  metadata_entries md = Ok first ->
  (md = None /\ first = [])
  \/ (exists doc h, md = Some doc /\ ArtifactMetadata.digest doc = Ok h
                    /\ first = [reserved_entry h]).
Proof.
  unfold metadata_entries. destruct md as [doc|].
  - destruct (ArtifactMetadata.digest doc) as [h|] eqn:E; simpl; [|discriminate].
    intros H. inversion H; subst. right. eauto.
  - intros H. inversion H. now left.
Qed.

(** The path specs decide the manifest; with the same items in another
    order the construction succeeds alike and yields the same digest. *)
Lemma init_order_free (paths1 paths2 : user_paths) (specs1 specs2 : dict string)
      (md : option json) (m1 : t) :
  user_paths_to_path_specs paths1 = Ok specs1 ->
  user_paths_to_path_specs paths2 = Ok specs2 ->
  Permutation specs1 specs2 -> NoDup (keys specs1) ->
  __init__ paths1 md = Ok m1 ->
  exists m2, __init__ paths2 md = Ok m2 /\ digest m1 = digest m2.
Proof.
  intros H1 H2 Hp Hnd Hm1. unfold __init__ in *.
  rewrite H1 in Hm1. rewrite H2. simpl in *.
  apply bind_ok in Hm1. destruct Hm1 as ([specs1' md'] & Ht & Hm1).
  apply bind_ok in Hm1. destruct Hm1 as (first & Hf & Hm1).
  apply bind_ok in Hm1. destruct Hm1 as (files1 & Hfiles & Hm1).
  destruct (take_metadata_Permutation _ _ _ _ _ Hp Hnd Ht) as (specs2' & -> & Hp').
  simpl. rewrite Hf. simpl.
  destruct (mapM_Permutation _ _ _ Hp' _ Hfiles) as (files2 & -> & Hpf).
  simpl. eexists. split; [reflexivity|].
  inversion Hm1; subst; simpl.
  apply ArtifactManifestV1_digest_order_free.
  - now apply Permutation_app_head.
  - rewrite map_app, (file_entry_paths _ _ Hfiles).
    pose proof (take_metadata_NoDup _ _ _ _ Ht Hnd) as Hnd'.
    destruct (metadata_entries_paths _ _ Hf) as [[_ ->]|(doc & h & Hmd & _ & ->)];
      simpl; [exact Hnd'|].
    constructor; [|exact Hnd'].
    apply (take_metadata_absent _ _ _ _ Ht). congruence.
Qed.
End ManifestFacts.

(* ================================================================= *)
(** * The claims *)

Section MetadataClaims.
Context {os : Platform}.

(** C8: the canonical serialization of a metadata document lists the
    members of every object in key order with fixed whitespace, so two
    documents that differ only in the insertion order of their keys
    serialize to the same bytes and have the same digest; a document
    holding a non-finite float fails with [SerializationError], and any
    other document is serialized. *)
Theorem dump_canonical (d1 d2 : json) :
  (same_doc d1 d2 -> distinct_keys d1 = true ->
     ArtifactMetadata.dump d1 = ArtifactMetadata.dump d2
     /\ ArtifactMetadata.digest d1 = ArtifactMetadata.digest d2)
  /\ (has_nonfinite d1 = true ->
        ArtifactMetadata.dump d1 = Raise SerializationError)
  /\ (has_nonfinite d1 = false -> exists text, ArtifactMetadata.dump d1 = Ok text)
  /\ (forall members, d1 = JDict members -> members <> [] ->
        forall text, ArtifactMetadata.dump d1 = Ok text ->
        exists items,
          text = render_dict 0 items
          /\ StronglySorted key_le items
          /\ Permutation (map fst members) (map fst items)).
Proof.
  split; [|split; [|split]].
  - intros Hsame Hkeys. destruct iterencode_same_doc as (Hd & _).
    unfold ArtifactMetadata.digest, ArtifactMetadata.dump.
    now rewrite (Hd d1 d2 Hsame Hkeys 0).
  - intros H. pose proof (iterencode_nonfinite d1 0) as Hn.
    now rewrite H in Hn.
  - intros H. pose proof (iterencode_nonfinite d1 0) as Hn.
    now rewrite H in Hn.
  - intros members -> Hne text. unfold ArtifactMetadata.dump.
    rewrite iterencode_dict by exact Hne.
    destruct (mapM (encode_item 0) members) as [items|] eqn:E; simpl; [|discriminate].
    intros H. inversion H; subst. exists (sorted_items items).
    split; [reflexivity|]. split; [apply sorted_items_sorted|].
    rewrite <- (encode_item_keys _ _ _ E).
    apply Permutation_map, sorted_items_Permutation.
Qed.
End MetadataClaims.

Section PathSpecClaims.
Context {os : Platform}.

(** C5: a list in which two elements share a basename is refused with
    [DuplicateNameError]; a mapping is taken over unchanged as the path
    spec, so the same two files under two distinct logical paths are
    accepted. *)
Theorem duplicate_basename_list_and_mapping
        (p q : string) (l1 l2 l3 : list string) (k1 k2 : string) (d : dict string) :
  basename p = basename q -> k1 <> k2 ->
  user_paths_to_path_specs (PathList (l1 ++ p :: l2 ++ q :: l3))
    = Raise DuplicateNameError
  /\ path_specs_of (PathDict d) = Ok d
  /\ (d <> [] -> user_paths_to_path_specs (PathDict d) = Ok d)
  /\ user_paths_to_path_specs (PathDict [(k1, p); (k2, q)])
     = Ok [(k1, p); (k2, q)].
Proof.
  intros Hpq _. split; [|split; [|split]]; try reflexivity.
  - unfold user_paths_to_path_specs, path_specs_of.
    now rewrite add_paths_shared.
  - intros Hd. unfold user_paths_to_path_specs. simpl.
    destruct d; [congruence | reflexivity].
Qed.
End PathSpecClaims.

Section ManifestClaims.
Context {os : Platform}.
Import LocalArtifactManifestV1.

(** C6: when a metadata argument is given, that is, one that is not
    [None], and the resolved path spec holds the reserved name
    artifact-metadata.json, the construction raises
    [AmbiguousMetadataError]; there is no manifest. *)
Theorem metadata_given_twice (paths : user_paths) (specs : dict string) (md : json) :
  user_paths_to_path_specs paths = Ok specs ->
  dict_mem ARTIFACT_METADATA_FILENAME specs = true ->
  md <> JNull ->
  __init__ paths (Some md) = Raise AmbiguousMetadataError.
Proof.
  intros Hs Hin Hmd. unfold __init__. rewrite Hs. cbn [bind].
  rewrite (given_metadata_some md Hmd).
  unfold take_metadata. unfold dict_mem in Hin.
  destruct (dict_get specs ARTIFACT_METADATA_FILENAME); [reflexivity | discriminate].
Qed.


(** The construction of C7 does return a manifest whenever the metadata
    file loads and serializes and every other file can be hashed. *)
Lemma reserved_path_init_succeeds (paths : user_paths) (specs : dict string)
      (local : string) (doc : json) (h : string) (files : list LocalArtifactEntry) :
  user_paths_to_path_specs paths = Ok specs ->
  dict_get specs ARTIFACT_METADATA_FILENAME = Some local ->
  ArtifactMetadata.from_file local = Ok doc ->
  ArtifactMetadata.digest doc = Ok h ->
  mapM file_entry (dict_remove specs ARTIFACT_METADATA_FILENAME) = Ok files ->
  exists m, __init__ paths None = Ok m /\ entries m = reserved_entry h :: files.
Proof.
  intros Hs Hget Hdoc Hh Hfiles. unfold __init__. rewrite Hs. simpl.
  unfold take_metadata. rewrite Hget, Hdoc. simpl.
  rewrite Hh. simpl. rewrite Hfiles. simpl. eauto.
Qed.
End ManifestClaims.

Section DigestClaims.
Context {os : Platform}.
Import LocalArtifactManifestV1.

Lemma init_resolves (paths : user_paths) (md : option json) (m : t) :
  __init__ paths md = Ok m ->
  exists specs, user_paths_to_path_specs paths = Ok specs.
Proof.
  unfold __init__. intros H. apply bind_ok in H.
  destruct H as (specs & Hs & _). eauto.
Qed.

Lemma resolve_nonempty (paths : user_paths) (specs : dict string) :
  user_paths_to_path_specs paths = Ok specs <->
  path_specs_of paths = Ok specs /\ specs <> [].
Proof.
  unfold user_paths_to_path_specs.
  destruct (path_specs_of paths) as [d|e]; simpl.
  - destruct d; simpl; split.
    + discriminate.
    + intros [H1 H2]. inversion H1; subst. congruence.
    + intros H. inversion H; subst. split; [reflexivity | discriminate].
    + intros [H _]. exact H.
  - split; [discriminate | intros [H _]; discriminate].
Qed.

(** The list form leaves one item per path, in the order of the list,
    exactly when the basenames are distinct. *)
Lemma list_path_specs (l : list string) (specs : dict string) :
  path_specs_of (PathList l) = Ok specs ->
  NoDup (map basename l) /\ specs = map spec_of_path l.
Proof.
  simpl. intros H.
  pose proof (add_paths_ok _ _ _ H (NoDup_nil _)) as Hnd. simpl in Hnd.
  split; [exact Hnd|].
  rewrite (add_paths_distinct l []) in H by exact Hnd.
  now inversion H.
Qed.

(** C9: building the manifest from the same items in another order,
    in the mapping form or in the list form, succeeds alike and gives
    the same digest; the digest of a manifest is the digest of its
    entries, which does not depend on their order. *)
Theorem digest_order_invariant
        (d1 d2 : dict string) (l1 l2 : list string) (md : option json) :
  NoDup (keys d1) -> Permutation d1 d2 -> Permutation l1 l2 ->
  (forall m1, __init__ (PathDict d1) md = Ok m1 ->
     exists m2, __init__ (PathDict d2) md = Ok m2 /\ digest m1 = digest m2)
  /\ (forall m1, __init__ (PathList l1) md = Ok m1 ->
        exists m2, __init__ (PathList l2) md = Ok m2 /\ digest m1 = digest m2)
  /\ (forall paths m, __init__ paths md = Ok m ->
        digest m = ArtifactManifestV1_digest (entries m))
  /\ (forall es1 es2, Permutation es1 es2 -> NoDup (map path es1) ->
        ArtifactManifestV1_digest es1 = ArtifactManifestV1_digest es2).
Proof.
  intros Hnd Hd Hl. split; [|split; [|split]].
  - intros m1 Hm1. destruct (init_resolves _ _ _ Hm1) as (specs & Hs).
    pose proof Hs as Hs'. apply resolve_nonempty in Hs'.
    destruct Hs' as [Hs1 Hne]. simpl in Hs1. inversion Hs1; subst specs.
    eapply init_order_free; [exact Hs | | exact Hd | exact Hnd | exact Hm1].
    apply resolve_nonempty. split; [reflexivity|].
    intros ->. apply Permutation_sym, Permutation_nil in Hd. contradiction.
  - intros m1 Hm1. destruct (init_resolves _ _ _ Hm1) as (specs & Hs).
    pose proof Hs as Hs'. apply resolve_nonempty in Hs'.
    destruct Hs' as [Hs1 Hne].
    destruct (list_path_specs _ _ Hs1) as [Hnd1 ->].
    assert (Hnd2 : NoDup (map basename l2))
      by (eapply Permutation_NoDup; [apply Permutation_map; exact Hl | exact Hnd1]).
    eapply init_order_free;
      [exact Hs | | apply Permutation_map; exact Hl | | exact Hm1].
    + apply resolve_nonempty. split.
      * simpl. now rewrite (add_paths_distinct l2 []).
      * intros E. apply Hne.
        apply (f_equal (@length _)) in E. rewrite length_map in E.
        rewrite <- (Permutation_length Hl) in E.
        destruct l1; [reflexivity | discriminate].
    + unfold keys. rewrite map_map. exact Hnd1.
  - intros paths m Hm. unfold __init__ in Hm.
    apply bind_ok in Hm. destruct Hm as (specs & _ & Hm).
    apply bind_ok in Hm. destruct Hm as ([specs' md'] & _ & Hm).
    apply bind_ok in Hm. destruct Hm as (first & _ & Hm).
    apply bind_ok in Hm. destruct Hm as (files & _ & Hm).
    now inversion Hm.
  - apply ArtifactManifestV1_digest_order_free.
Qed.
End DigestClaims.

(** ** The coordinator *)

Section CoordinatorFacts.
Context {os : Platform} {remote : Type} {api : Api remote}.
Import LocalArtifact.

Lemma push_entry_raises self version_id entry (w : world remote) e :
  fst (push_entry self version_id entry w) = Raise e ->
  e <> UnexpectedStateError.
Proof.
  unfold push_entry.
  destruct (path entry =? ARTIFACT_METADATA_FILENAME)%string; simpl; [|discriminate].
  destruct (LocalArtifactManifestV1._metadata (_local_manifest self)) as [doc|]; simpl.
  - destruct (ArtifactMetadata.dump doc) as [text|e'] eqn:E; simpl; [discriminate|].
    intros H; inversion H; subst.
    apply iterencode_raises in E. subst. discriminate.
  - intros H; inversion H; subst. discriminate.
Qed.

Lemma push_entries_raises self version_id entries (w : world remote) e :
  fst (push_entries self version_id entries w) = Raise e ->
  e <> UnexpectedStateError.
Proof.
  revert w. induction entries as [|entry rest IH]; simpl; intros w; [discriminate|].
  destruct (push_entry self version_id entry w) as [[u|e'] w'] eqn:E.
  - apply IH.
  - simpl. intros H; inversion H; subst.
    eapply push_entry_raises. rewrite E. reflexivity.
Qed.

(** The loop of [wait] never looks at the remote: whatever the world
    is, it is decided by the object the coordinator holds. *)
Lemma wait_loop_blocked (a : ServerArtifact) (s : string) :
  getattr_state a = Ok s -> s <> "READY" ->
  forall fuel (w : world remote), fst (wait_loop fuel a w) = Blocked.
Proof.
  intros Ha Hs. apply String.eqb_neq in Hs.
  induction fuel as [|n IH]; intros w; simpl; rewrite Ha, Hs; [reflexivity | apply IH].
Qed.

Lemma wait_loop_no_attribute (a : ServerArtifact) :
  sa_attrs a = false ->
  forall fuel (w : world remote), wait_loop fuel a w = (Raised NoAttributeError, w).
Proof.
  intros Ha fuel w. destruct fuel; simpl; unfold getattr_state; now rewrite Ha.
Qed.

(** After a [save] that returned, [wait] never returns: the version it
    holds is COMMITTED or PENDING and is never read again from the
    remote. *)
Lemma wait_after_save_never_returns name self (w : world remote) a self' w' :
  save name self w = (Ok a, self', w') ->
  forall fuel (w'' : world remote), fst (wait fuel self' w'') <> Returned.
Proof.
  unfold save. destruct (created_version self name w) as [v r].
  intros H fuel w''.
  assert (Hs : _server_artifact self' = Some v
               /\ (sa_state v = "COMMITTED" \/ sa_state v = "PENDING")).
  { unfold getitem_state in H.
    destruct (String.eqb_spec (sa_state v) "COMMITTED") as [Ec|Ec].
    - inversion H; subst. auto.
    - destruct (String.eqb_spec (sa_state v) "PENDING") as [Ep|Ep]; simpl in H.
      + destruct (push_entries _ _ _ _) as [[u|e] w1]; inversion H; subst; auto.
      + discriminate. }
  destruct Hs as [Hv Hstate]. unfold wait. rewrite Hv.
  destruct (sa_attrs v) eqn:Ha.
  - rewrite (wait_loop_blocked v (sa_state v)); [discriminate | |].
    + unfold getattr_state. now rewrite Ha.
    + destruct Hstate as [-> | ->]; discriminate.
  - rewrite wait_loop_no_attribute by exact Ha. discriminate.
Qed.

Lemma wait_loop_not_unsaved (a : ServerArtifact) :
  forall fuel (w : world remote), fst (wait_loop fuel a w) <> Raised NotSavedError.
Proof.
  induction fuel as [|n IH]; intros w; simpl; unfold getattr_state;
    destruct (sa_attrs a); simpl; try discriminate;
    destruct (sa_state a =? "READY")%string; simpl; try discriminate.
  apply IH.
Qed.

(** Once [save] has been called, whatever it returned or raised, the
    coordinator holds a version and [wait] no longer raises
    [NotSavedError]. *)
Lemma wait_after_save_call name self (w : world remote) :
  forall fuel (w' : world remote),
    fst (wait fuel (snd (fst (save name self w))) w') <> Raised NotSavedError.
Proof.
  intros fuel w'.
  assert (Hv : _server_artifact (snd (fst (save name self w)))
               = Some (fst (created_version self name w))).
  { unfold save. destruct (created_version self name w) as [v r]. simpl.
    destruct (getitem_state v =? "COMMITTED")%string; [reflexivity|].
    destruct (negb (getitem_state v =? "PENDING")%string); [reflexivity|].
    destruct (push_entries _ _ _ _) as [[u|e] w1]; reflexivity. }
  unfold wait. rewrite Hv. apply wait_loop_not_unsaved.
Qed.
End CoordinatorFacts.

Section CoordinatorClaims.
Context {os : Platform} {remote : Type} {api : Api remote}.
Import LocalArtifact.

(** C2: when the version the remote creates for [save] is COMMITTED,
    [save] returns that version at once: the coordinator keeps it, the
    file pusher receives no call at all (no [file_changed], no
    [commit_artifact], no scratch file), and the remote is left as the
    creation call left it. *)
Theorem save_committed_returns_at_once (name : string) (self : t) (w : world remote) :
  sa_state (fst (created_version self name w)) = "COMMITTED" ->
  fst (fst (save name self w)) = Ok (fst (created_version self name w))
  /\ _server_artifact (snd (fst (save name self w)))
     = Some (fst (created_version self name w))
  /\ pushed (snd (save name self w)) = pushed w
  /\ filter is_transfer (pushed (snd (save name self w)))
     = filter is_transfer (pushed w)
  /\ temp_files (snd (save name self w)) = temp_files w
  /\ the_remote (snd (save name self w)) = snd (created_version self name w).
Proof.
  unfold save, getitem_state.
  destruct (created_version self name w) as [v r]. simpl.
  intros ->. simpl. repeat split.
Qed.

(** C3: [save] raises [UnexpectedStateError] exactly when the state of
    the version the remote creates is neither COMMITTED nor PENDING,
    and then the file pusher has received no call. *)
Theorem save_unexpected_state (name : string) (self : t) (w : world remote) :
  (fst (fst (save name self w)) = Raise UnexpectedStateError
   <-> sa_state (fst (created_version self name w)) <> "COMMITTED"
       /\ sa_state (fst (created_version self name w)) <> "PENDING")
  /\ (fst (fst (save name self w)) = Raise UnexpectedStateError ->
      pushed (snd (save name self w)) = pushed w
      /\ temp_files (snd (save name self w)) = temp_files w).
Proof.
  unfold save, getitem_state.
  destruct (created_version self name w) as [v r]. simpl.
  destruct (String.eqb_spec (sa_state v) "COMMITTED") as [Ec|Ec]; simpl.
  - split; [split|]; [discriminate | intros [H _]; congruence | discriminate].
  - destruct (String.eqb_spec (sa_state v) "PENDING") as [Ep|Ep]; simpl.
    + destruct (push_entries _ _ _ _) as [[u|e] w1] eqn:E; simpl.
      * split; [split|]; [discriminate | intros [_ H]; congruence | discriminate].
      * assert (He : e <> UnexpectedStateError)
          by (eapply push_entries_raises; rewrite E; reflexivity).
        split; [split|]; [congruence | intros [_ H]; congruence | congruence].
    + split; [split|]; auto.
Qed.

(** C4, as the code has it: on a coordinator as its constructor leaves
    it, before any call of [save], [wait] raises [NotSavedError] and
    does nothing else. *)
Theorem wait_before_save (paths : user_paths) (md : option json) (user : bool) (self : t) :
  __init__ paths md user = Ok self ->
  forall fuel (w : world remote), wait fuel self w = (Raised NotSavedError, w).
Proof.
  unfold __init__. intros H fuel w. apply bind_ok in H.
  destruct H as (m & _ & H). inversion H; subst. reflexivity.
Qed.
End CoordinatorClaims.

Section ReadClaims.
Context {os : Platform}.

(** C10: on every [LocalArtifactRead] that was constructed, the
    property [digest] raises instead of returning the digest of the
    manifest: it calls the manifest's digest, which is a string. *)
Theorem read_digest_raises (name : string) (p : user_paths) (self : LocalArtifactRead.t) :
  LocalArtifactRead.__init__ name p = Ok self ->
  LocalArtifactRead.digest self = Raise NotCallableError
  /\ LocalArtifactRead.digest self
     <> Ok (PyStr (LocalArtifactManifestV1.digest (LocalArtifactRead._local_manifest self))).
Proof.
  intros _. unfold LocalArtifactRead.digest. simpl. split; [reflexivity | discriminate].
Qed.
End ReadClaims.

(* ================================================================= *)
(** * Further properties of the module *)

(** ** Dictionaries, continued *)

Section DictUpdates.
Context {V : Type}.
Implicit Types (d : dict V) (k : string) (v : V).

Lemma dict_set_keys d k v :
  keys (dict_set d k v) = if dict_mem k d then keys d else (keys d ++ [k])%list.
Proof.
  unfold dict_mem. induction d as [|[k' v'] t IH]; simpl; [reflexivity|].
  destruct (String.eqb_spec k' k) as [->|Hne]; simpl; [reflexivity|].
  rewrite IH. now destruct (dict_get t k).
Qed.

Lemma dict_set_NoDup d k v : NoDup (keys d) -> NoDup (keys (dict_set d k v)).
Proof.
  intros Hnd. rewrite dict_set_keys.
  destruct (dict_mem k d) eqn:E; [exact Hnd|].
  eapply Permutation_NoDup; [apply Permutation_cons_append|].
  constructor; [|exact Hnd].
  apply not_true_iff_false in E. now rewrite dict_mem_In in E.
Qed.

Lemma In_dict_set d k v k' v' :
  In (k', v') (dict_set d k v) -> (k' = k /\ v' = v) \/ In (k', v') d.
Proof.
  induction d as [|[k0 v0] t IH]; simpl.
  - intros [H|[]]. inversion H; subst. now left.
  - destruct (String.eqb_spec k0 k) as [->|Hne]; simpl.
    + intros [H|H]; [inversion H; subst; now left | right; now right].
    + intros [H|H]; [right; now left|].
      destruct (IH H) as [E|E]; [now left | right; now right].
Qed.

Lemma dict_set_nonempty d k v : dict_set d k v <> [].
Proof.
  destruct d as [|[k' v'] t]; simpl; [discriminate|].
  destruct (k' =? k)%string; discriminate.
Qed.
End DictUpdates.

(** ** posixpath.basename, continued *)

Lemma basename_no_sep (p : string) : has_sep (basename p) = false.
Proof.
  induction p as [|c rest IH]; simpl; [reflexivity|].
  destruct (has_sep rest) eqn:E; [exact IH|].
  destruct (c =? "/")%char eqn:Ec; [exact E|].
  simpl. now rewrite Ec, E.
Qed.

Lemma basename_plain (p : string) : has_sep p = false -> basename p = p.
Proof.
  destruct p as [|c rest]; simpl; [reflexivity|].
  intros H. apply orb_false_iff in H. destruct H as [Hc Hr].
  now rewrite Hr, Hc.
Qed.

Lemma has_sep_join (d f : string) : has_sep (d ++ "/" ++ f) = true.
Proof.
  induction d as [|c rest IH]; simpl in *; [reflexivity|].
  rewrite IH. apply orb_true_r.
Qed.

Lemma basename_join (d f : string) :
  has_sep f = false -> basename (d ++ "/" ++ f) = f.
Proof.
  intros Hf. induction d as [|c rest IH].
  - simpl. now rewrite Hf.
  - change (String c rest ++ "/" ++ f) with (String c (rest ++ "/" ++ f)).
    cbn [basename]. now rewrite has_sep_join.
Qed.

(** ** Path specs, continued *)

Section MorePathSpecs.
Context {os : Platform}.

Lemma add_paths_raises (l : list string) (d : dict string) (e : exn) :
  add_paths l d = Raise e -> e = DuplicateNameError.
Proof.
  revert d. induction l as [|p rest IH]; simpl; intros d H; [discriminate|].
  destruct (dict_mem (basename p) d); [now inversion H | eapply IH; exact H].
Qed.

(** The step of the directory walk, file by file. *)
Lemma add_walk_files (root : string) (d : dict string) :
  add_walk root d
  = fold_left (fun specs local => dict_set specs (relpath local root) local)
              (walked_files root) d.
Proof.
  unfold add_walk, walked_files. revert d.
  induction (walk root) as [|dir dirs IH]; intros d; simpl; [reflexivity|].
  rewrite fold_left_app, IH. f_equal.
  generalize d. clear. induction (snd dir) as [|f fs IH]; intros d; simpl;
    [reflexivity | apply IH].
Qed.

Lemma fold_files_NoDup (root : string) (files : list string) (d : dict string) :
  NoDup (keys d) ->
  NoDup (keys (fold_left (fun specs local => dict_set specs (relpath local root) local)
                         files d)).
Proof.
  revert d. induction files as [|f fs IH]; intros d H; simpl; [exact H|].
  apply IH. now apply dict_set_NoDup.
Qed.

Lemma fold_files_In (root : string) (files : list string) (d : dict string) k v :
  In (k, v) (fold_left (fun specs local => dict_set specs (relpath local root) local)
                       files d) ->
  In (k, v) d \/ (In v files /\ k = relpath v root).
Proof.
  revert d. induction files as [|f fs IH]; intros d; simpl; [now left|].
  intros H. destruct (IH _ H) as [Hd|[Hv Hk]].
  - destruct (In_dict_set _ _ _ _ _ Hd) as [[-> ->]|Hd']; [right | now left].
    split; [now left | reflexivity].
  - right. split; [now right | exact Hk].
Qed.

Lemma fold_files_mem (root : string) (files : list string) (d : dict string) k :
  dict_mem k d = true \/ In k (map (fun v => relpath v root) files) ->
  dict_mem k (fold_left (fun specs local => dict_set specs (relpath local root) local)
                        files d) = true.
Proof.
  revert d. induction files as [|f fs IH]; intros d; simpl.
  - intros [H|[]]. exact H.
  - intros H. apply IH. rewrite dict_mem_set.
    destruct H as [H|[H|H]].
    + left. rewrite H. apply orb_true_r.
    + left. rewrite H, String.eqb_refl. reflexivity.
    + now right.
Qed.

Lemma fold_files_nonempty (root : string) (files : list string) (d : dict string) :
  d <> [] ->
  fold_left (fun specs local => dict_set specs (relpath local root) local) files d <> [].
Proof.
  revert d. induction files as [|f fs IH]; intros d H; simpl; [exact H|].
  apply IH, dict_set_nonempty.
Qed.
End MorePathSpecs.

Section PathSpecOutcomes.
Context {os : Platform}.

Lemma resolve_list (l : list string) :
  user_paths_to_path_specs (PathList l)
  = if nodupb (map basename l)
    then match l with
         | [] => Raise EmptyInputError
         | _ :: _ => Ok (map spec_of_path l)
         end
    else Raise DuplicateNameError.
Proof.
  unfold user_paths_to_path_specs, path_specs_of.
  destruct (nodupb (map basename l)) eqn:E.
  - apply nodupb_NoDup in E. rewrite (add_paths_distinct l []) by exact E.
    simpl. now destruct l.
  - destruct (add_paths l []) as [d|e] eqn:Ea.
    + apply add_paths_ok in Ea; [|constructor]. simpl in Ea.
      apply nodupb_NoDup in Ea. congruence.
    + apply add_paths_raises in Ea. now subst.
Qed.

(** The list form, completely: a list with a repeated basename raises
    [DuplicateNameError], the empty list raises [EmptyInputError], and
    every other list yields one item per path, in the order of the list. *)
Theorem list_form_outcome (l : list string) :
  user_paths_to_path_specs (PathList l)
  = if nodupb (map basename l)
    then match l with
         | [] => Raise EmptyInputError
         | _ :: _ => Ok (map spec_of_path l)
         end
    else Raise DuplicateNameError.
Proof.
  apply resolve_list.
Qed.

(** The items of an accepted list: the local paths are the paths of the
    list in their order, each under its basename, and no logical path
    holds a slash. *)
Theorem list_form_items (l : list string) (specs : dict string) :
  user_paths_to_path_specs (PathList l) = Ok specs ->
  map snd specs = l
  /\ keys specs = map basename l
  /\ NoDup (keys specs)
  /\ Forall (fun kv => has_sep (fst kv) = false) specs.
Proof.
  rewrite resolve_list.
  destruct (nodupb (map basename l)) eqn:E; [|discriminate].
  destruct l as [|p rest] eqn:El; [discriminate|]. rewrite <- El in *. clear El.
  intros H. inversion H; subst specs. clear H.
  apply nodupb_NoDup in E. unfold keys. rewrite !map_map.
  split; [apply map_id|]. split; [reflexivity|]. split; [exact E|].
  apply Forall_forall. intros kv Hin. apply in_map_iff in Hin.
  destruct Hin as (q & <- & _). apply basename_no_sep.
Qed.

Lemma resolve_single (p : string) :
  isdir p = false ->
  user_paths_to_path_specs (PathSingle p)
  = if isfile p then Ok [(basename p, p)] else Raise InvalidInputError.
Proof.
  intros Hd. unfold user_paths_to_path_specs, path_specs_of. rewrite Hd.
  now destruct (isfile p).
Qed.

(** A single path that is no directory: a file yields the one item
    [basename -> path], anything else raises [InvalidInputError]. *)
Theorem single_path_outcome (p : string) :
  isdir p = false ->
  user_paths_to_path_specs (PathSingle p)
  = if isfile p then Ok [(basename p, p)] else Raise InvalidInputError.
Proof.
  apply resolve_single.
Qed.

(** A directory: every file the walk meets gets an item, every item is
    such a file under its path relative to the directory, the keys are
    distinct, and a walk that meets no file raises [EmptyInputError]. *)
Theorem directory_outcome (root : string) :
  isdir root = true ->
  (walked_files root = [] ->
   user_paths_to_path_specs (PathSingle root) = Raise EmptyInputError)
  /\ (walked_files root <> [] ->
      exists specs,
        user_paths_to_path_specs (PathSingle root) = Ok specs
        /\ NoDup (keys specs)
        /\ (forall k v, In (k, v) specs ->
                        In v (walked_files root) /\ k = relpath v root)
        /\ (forall v, In v (walked_files root) ->
                      dict_mem (relpath v root) specs = true)).
Proof.
  intros Hd. unfold user_paths_to_path_specs, path_specs_of. rewrite Hd.
  rewrite add_walk_files. split.
  - intros ->. reflexivity.
  - intros Hne.
    set (specs := fold_left (fun specs local => dict_set specs (relpath local root) local)
                            (walked_files root) []).
    assert (Hs : specs <> []).
    { unfold specs. destruct (walked_files root) as [|f fs]; [congruence|].
      simpl. apply fold_files_nonempty. discriminate. }
    exists specs. split; [simpl; destruct specs; [congruence | reflexivity]|].
    split; [apply fold_files_NoDup; constructor|]. split.
    + intros k v Hin. destruct (fold_files_In _ _ _ _ _ Hin) as [[]|H]. exact H.
    + intros v Hin. apply fold_files_mem. right.
      apply in_map_iff. eauto.
Qed.

(** Whatever the form of the input, an accepted path spec is not empty
    and its logical paths are distinct. *)
Theorem path_specs_distinct (paths : user_paths) (specs : dict string) :
  well_formed paths ->
  user_paths_to_path_specs paths = Ok specs ->
  specs <> [] /\ NoDup (keys specs).
Proof.
  intros Hwf H. pose proof H as H'. apply resolve_nonempty in H'.
  destruct H' as [Hs Hne]. split; [exact Hne|].
  destruct paths as [l|d|p].
  - destruct (list_path_specs _ _ Hs) as [Hnd ->].
    unfold keys. now rewrite map_map.
  - simpl in Hs. inversion Hs; subst. exact Hwf.
  - simpl in Hs. destruct (isdir p).
    + inversion Hs; subst. rewrite add_walk_files.
      apply fold_files_NoDup. constructor.
    + destruct (isfile p); [|discriminate]. inversion Hs; subst.
      simpl. repeat constructor. intros [].
Qed.

(** The three forms agree: a list with distinct basenames builds the
    manifest its items build as a mapping, and a single file builds the
    manifest of the one-element list. *)
Theorem forms_agree (l : list string) (p : string) (md : option json) :
  NoDup (map basename l) -> isdir p = false -> isfile p = true ->
  LocalArtifactManifestV1.__init__ (PathList l) md
  = LocalArtifactManifestV1.__init__ (PathDict (map spec_of_path l)) md
  /\ LocalArtifactManifestV1.__init__ (PathSingle p) md
     = LocalArtifactManifestV1.__init__ (PathList [p]) md.
Proof.
  intros Hnd Hd Hf. unfold LocalArtifactManifestV1.__init__. split.
  - rewrite resolve_list.
    apply nodupb_NoDup in Hnd. rewrite Hnd.
    unfold user_paths_to_path_specs. simpl. now destruct l.
  - rewrite resolve_single by exact Hd. rewrite Hf.
    now rewrite resolve_list.
Qed.
End PathSpecOutcomes.

(** ** Manifest construction, continued *)

Section MoreManifestFacts.
Context {os : Platform}.
Import LocalArtifactManifestV1.

(** The steps a successful construction went through. *)
Lemma init_steps (paths : user_paths) (md : option json) (m : t) :
  __init__ paths md = Ok m ->
  exists specs first files,
    user_paths_to_path_specs paths = Ok specs
    /\ take_metadata specs (given_metadata md) = Ok (_path_specs m, metadata m)
    /\ metadata_entries (metadata m) = Ok first
    /\ mapM file_entry (_path_specs m) = Ok files
    /\ entries m = (first ++ files)%list.
Proof.
  unfold __init__. intros H.
  apply bind_ok in H. destruct H as (specs & Hs & H).
  apply bind_ok in H. destruct H as ([specs' md'] & Ht & H).
  apply bind_ok in H. destruct H as (first & Hf & H).
  apply bind_ok in H. destruct H as (files & Hfiles & H).
  inversion H; subst; simpl. exists specs, first, files. auto.
Qed.

Lemma take_metadata_reserved (specs specs' : dict string) (md md' : option json) :
  take_metadata specs md = Ok (specs', md') ->
  dict_mem ARTIFACT_METADATA_FILENAME specs' = false.
Proof.
  unfold take_metadata, dict_mem.
  destruct (dict_get specs ARTIFACT_METADATA_FILENAME) as [local|] eqn:E.
  - destruct md; [discriminate|].
    destruct (ArtifactMetadata.from_file local); simpl; [|discriminate].
    intros H. inversion H; subst.
    pose proof (dict_remove_absent specs ARTIFACT_METADATA_FILENAME) as Ha.
    apply dict_get_None in Ha. now rewrite Ha.
  - intros H. inversion H; subst. now rewrite E.
Qed.

Lemma take_metadata_untouched (specs : dict string) (md : option json) :
  dict_mem ARTIFACT_METADATA_FILENAME specs = false ->
  take_metadata specs md = Ok (specs, md).
Proof.
  unfold take_metadata, dict_mem.
  now destruct (dict_get specs ARTIFACT_METADATA_FILENAME).
Qed.

Lemma file_entry_Forall2 (specs : dict string) (files : list LocalArtifactEntry) :
  mapM file_entry specs = Ok files ->
  Forall2 (fun kv e => path e = fst kv
                       /\ md5_file (snd kv) = Ok (hash e)
                       /\ local_path e = Some (abspath (snd kv)))
          specs files.
Proof.
  intros H. apply mapM_ok_Forall2 in H.
  induction H as [|kv e specs' files' Hkv _ IH]; constructor; [|exact IH].
  unfold file_entry, hash_file in Hkv.
  destruct (md5_file (snd kv)); simpl in Hkv; [|discriminate].
  inversion Hkv; subst; simpl. auto.
Qed.

Lemma file_entries_not_reserved (specs : dict string) (files : list LocalArtifactEntry) :
  dict_mem ARTIFACT_METADATA_FILENAME specs = false ->
  mapM file_entry specs = Ok files ->
  Forall (fun e => path e <> ARTIFACT_METADATA_FILENAME) files.
Proof.
  intros Hr Hf. apply Forall_forall. intros e He E.
  apply not_true_iff_false in Hr. apply Hr. apply dict_mem_In.
  rewrite <- (file_entry_paths _ _ Hf), <- E. now apply in_map.
Qed.

Lemma filter_all {A} (f : A -> bool) (l : list A) :
  Forall (fun x => f x = true) l -> filter f l = l.
Proof.
  induction 1 as [|x t Hx _ IH]; simpl; [reflexivity|]. now rewrite Hx, IH.
Qed.

Lemma Forall2_In_left {A B} (R : A -> B -> Prop) (l : list A) (l' : list B) (x : A) :
  Forall2 R l l' -> In x l -> exists y, In y l' /\ R x y.
Proof.
  induction 1 as [|a b t t' Hab _ IH]; simpl; [contradiction|].
  intros [->|Hin]; [eauto|]. destruct (IH Hin) as (y & Hy & Hr). eauto.
Qed.

(** Every manifest that was constructed: the reserved name is not among
    its path specs; its entries are the metadata entry, when there is
    metadata, followed by one entry per path spec in the order of the
    path specs, each with the md5 of its file and the absolute path. *)
Theorem manifest_layout (paths : user_paths) (md : option json) (m : t) :
  __init__ paths md = Ok m ->
  dict_mem ARTIFACT_METADATA_FILENAME (_path_specs m) = false
  /\ exists first files,
       entries m = (first ++ files)%list
       /\ match metadata m with
          | None => first = []
          | Some doc => exists h, ArtifactMetadata.digest doc = Ok h
                                  /\ first = [reserved_entry h]
          end
       /\ Forall2 (fun kv e => path e = fst kv
                               /\ md5_file (snd kv) = Ok (hash e)
                               /\ local_path e = Some (abspath (snd kv)))
                  (_path_specs m) files.
Proof.
  intros H. destruct (init_steps _ _ _ H) as (specs & first & files & _ & Ht & Hf & Hfiles & He).
  split; [eapply take_metadata_reserved; exact Ht|].
  exists first, files. split; [exact He|]. split.
  - destruct (metadata_entries_paths _ _ Hf) as [[-> ->]|(doc & h & -> & Hh & ->)];
      [reflexivity | eauto].
  - now apply file_entry_Forall2.
Qed.

(** The logical paths of a manifest's entries are distinct, and the
    entry without a local path is the metadata entry and no other. *)
Theorem manifest_entries_distinct (paths : user_paths) (md : option json) (m : t) :
  well_formed paths ->
  __init__ paths md = Ok m ->
  NoDup (map path (entries m))
  /\ forall e, In e (entries m) ->
               (local_path e = None <-> path e = ARTIFACT_METADATA_FILENAME).
Proof.
  intros Hwf H.
  destruct (init_steps _ _ _ H) as (specs & first & files & Hs & Ht & Hf & Hfiles & He).
  assert (Hnd : NoDup (keys (_path_specs m))).
  { eapply take_metadata_NoDup; [exact Ht|].
    destruct paths as [l|d|p].
    - apply resolve_nonempty in Hs. destruct Hs as [Hs _].
      destruct (list_path_specs _ _ Hs) as [Hl ->]. unfold keys. now rewrite map_map.
    - apply resolve_nonempty in Hs. destruct Hs as [Hs _].
      simpl in Hs. inversion Hs; subst. exact Hwf.
    - apply resolve_nonempty in Hs. destruct Hs as [Hs _]. simpl in Hs.
      destruct (isdir p).
      + inversion Hs; subst. rewrite add_walk_files.
        apply fold_files_NoDup. constructor.
      + destruct (isfile p); [|discriminate]. inversion Hs; subst.
        simpl. repeat constructor. intros []. }
  pose proof (take_metadata_reserved _ _ _ _ Ht) as Hr.
  pose proof (file_entries_not_reserved _ _ Hr Hfiles) as Hnot.
  pose proof (file_entry_local _ _ Hfiles) as Hloc.
  rewrite He. split.
  - rewrite map_app, (file_entry_paths _ _ Hfiles).
    destruct (metadata_entries_paths _ _ Hf) as [[_ ->]|(doc & h & _ & _ & ->)];
      simpl; [exact Hnd|].
    constructor; [|exact Hnd].
    apply not_true_iff_false in Hr. now rewrite dict_mem_In in Hr.
  - intros e Hin. apply in_app_or in Hin. destruct Hin as [Hin|Hin].
    + destruct (metadata_entries_paths _ _ Hf) as [[_ ->]|(doc & h & _ & _ & ->)];
        [destruct Hin|].
      destruct Hin as [<-|[]]. simpl. split; reflexivity.
    + rewrite Forall_forall in Hnot, Hloc.
      destruct (Hloc e Hin) as (p & Hp). specialize (Hnot e Hin).
      rewrite Hp. split; [discriminate | contradiction].
Qed.

(** A metadata argument that is not [None] is kept as it is, next to
    path specs that are the resolved ones; with [None], and without the
    reserved name among the resolved path specs, the manifest has no
    metadata and no metadata entry. *)
Theorem metadata_argument_kept (paths : user_paths) (md : option json)
        (specs : dict string) (m : t) :
  user_paths_to_path_specs paths = Ok specs ->
  dict_mem ARTIFACT_METADATA_FILENAME specs = false ->
  __init__ paths md = Ok m ->
  metadata m = given_metadata md /\ _path_specs m = specs
  /\ length (entries m)
     = (match given_metadata md with Some _ => 1 | None => 0 end + length specs)%nat.
Proof.
  intros Hs Hr H.
  destruct (init_steps _ _ _ H) as (specs' & first & files & Hs' & Ht & Hf & Hfiles & He).
  rewrite Hs in Hs'. inversion Hs'; subst specs'.
  remember (given_metadata md) as g eqn:Eg. clear Eg.
  rewrite (take_metadata_untouched _ _ Hr) in Ht. injection Ht as E1 E2. subst g.
  split; [reflexivity|]. split; [now symmetry|].
  rewrite He, length_app.
  apply mapM_ok_Forall2, Forall2_length in Hfiles. rewrite <- Hfiles, <- E1.
  destruct (metadata_entries_paths _ _ Hf) as [[Em ->]|(doc & h & Em & _ & ->)];
    rewrite Em; reflexivity.
Qed.

(** One file that cannot be hashed aborts the construction: there is no
    manifest with the other files. *)
Theorem unreadable_file_aborts (paths : user_paths) (md : option json)
        (specs : dict string) (k p : string) (e : exn) :
  user_paths_to_path_specs paths = Ok specs ->
  In (k, p) specs -> k <> ARTIFACT_METADATA_FILENAME ->
  md5_file p = Raise e ->
  exists e', __init__ paths md = Raise e'.
Proof.
  intros Hs Hin Hk Hp.
  destruct (__init__ paths md) as [m|e'] eqn:H; [|eauto].
  exfalso.
  destruct (init_steps _ _ _ H) as (specs' & first & files & Hs' & Ht & _ & Hfiles & _).
  rewrite Hs in Hs'. inversion Hs'; subst specs'.
  assert (Hin' : In (k, p) (_path_specs m)).
  { unfold take_metadata in Ht.
    destruct (dict_get specs ARTIFACT_METADATA_FILENAME) as [local|].
    - destruct (given_metadata md); [discriminate|].
      destruct (ArtifactMetadata.from_file local); simpl in Ht; [|discriminate].
      injection Ht as E1 E2. rewrite <- E1. unfold dict_remove. apply filter_In.
      split; [exact Hin|]. simpl. apply negb_true_iff. now apply String.eqb_neq.
    - injection Ht as E1 E2. rewrite <- E1. exact Hin. }
  apply file_entry_Forall2 in Hfiles.
  destruct (Forall2_In_left _ _ _ _ Hfiles Hin') as (en & _ & _ & Hh & _).
  simpl in Hh. congruence.
Qed.

(** Metadata that holds a NaN or an infinity aborts the construction
    with [SerializationError], whether it came as the argument or from
    the metadata file ([json.load] accepts such values). *)
Theorem nonfinite_metadata_aborts (paths : user_paths) (specs : dict string)
        (doc : json) :
  user_paths_to_path_specs paths = Ok specs ->
  has_nonfinite doc = true ->
  (dict_mem ARTIFACT_METADATA_FILENAME specs = false ->
   __init__ paths (Some doc) = Raise SerializationError)
  /\ (forall local,
        dict_get specs ARTIFACT_METADATA_FILENAME = Some local ->
        ArtifactMetadata.from_file local = Ok doc ->
        __init__ paths None = Raise SerializationError).
Proof.
  intros Hs Hn.
  assert (Hd : ArtifactMetadata.digest doc = Raise SerializationError).
  { unfold ArtifactMetadata.digest, ArtifactMetadata.dump.
    pose proof (iterencode_nonfinite doc 0) as H. rewrite Hn in H. now rewrite H. }
  split.
  - intros Hr. unfold __init__. rewrite Hs. cbn [bind].
    rewrite given_metadata_some by (intros ->; discriminate Hn).
    rewrite (take_metadata_untouched _ _ Hr). simpl. now rewrite Hd.
  - intros local Hl Hdoc. unfold __init__. rewrite Hs. simpl.
    unfold take_metadata. rewrite Hl, Hdoc. simpl. now rewrite Hd.
Qed.

(** The emptiness check comes before the metadata file leaves the path
    specs: an input that resolves to the metadata file alone builds a
    manifest with the metadata entry and no file entry. *)
Theorem metadata_only_manifest (paths : user_paths) (local : string) (doc : json) :
  user_paths_to_path_specs paths = Ok [(ARTIFACT_METADATA_FILENAME, local)] ->
  ArtifactMetadata.from_file local = Ok doc ->
  has_nonfinite doc = false ->
  exists m h,
    __init__ paths None = Ok m
    /\ ArtifactMetadata.digest doc = Ok h
    /\ entries m = [reserved_entry h]
    /\ _path_specs m = []
    /\ metadata m = Some doc.
Proof.
  intros Hs Hdoc Hn.
  pose proof (iterencode_nonfinite doc 0) as H. rewrite Hn in H.
  destruct H as (text & Ht).
  unfold __init__. rewrite Hs. simpl. unfold take_metadata. simpl.
  rewrite Hdoc. simpl.
  unfold ArtifactMetadata.digest, ArtifactMetadata.dump. rewrite Ht. simpl.
  eexists. eexists. repeat split.
Qed.

(** The construction returns a manifest whenever the path specs resolve,
    the metadata, if any, holds finite numbers only, and every file can
    be hashed; its metadata is the argument, unless that is [None]. *)
Theorem init_succeeds (paths : user_paths) (md : option json) (specs : dict string) :
  user_paths_to_path_specs paths = Ok specs ->
  dict_mem ARTIFACT_METADATA_FILENAME specs = false ->
  match md with Some doc => has_nonfinite doc = false | None => True end ->
  Forall (fun kv => exists h, md5_file (snd kv) = Ok h) specs ->
  exists m, __init__ paths md = Ok m /\ _path_specs m = specs
            /\ metadata m = given_metadata md.
Proof.
  intros Hs Hr Hmd Hfiles. unfold __init__. rewrite Hs. cbn [bind].
  assert (Hg : match given_metadata md with
               | Some doc => has_nonfinite doc = false
               | None => True
               end).
  { destruct md as [doc|]; [|exact I]. destruct doc; simpl; auto. }
  remember (given_metadata md) as g eqn:Eg. clear Eg Hmd.
  rewrite (take_metadata_untouched _ _ Hr). simpl.
  assert (Hf : exists first, metadata_entries g = Ok first).
  { destruct g as [doc|]; simpl; [|eauto].
    pose proof (iterencode_nonfinite doc 0) as H. rewrite Hg in H.
    destruct H as (text & Ht).
    unfold ArtifactMetadata.digest, ArtifactMetadata.dump. rewrite Ht. simpl. eauto. }
  destruct Hf as (first & ->). simpl.
  destruct (mapM_all_ok file_entry specs) as (files & ->).
  - eapply Forall_impl; [|exact Hfiles]. intros kv (h & Hh).
    unfold file_entry, hash_file. rewrite Hh. simpl. eauto.
  - simpl. eexists. repeat split.
Qed.

(** What [dump] writes after its three header lines: one line per path
    spec, in their order, made of the logical path, the absolute local
    path and the md5 of the file; the metadata entry has no line. *)
Theorem dump_entry_lines (paths : user_paths) (md : option json) (m : t) :
  __init__ paths md = Ok m ->
  Forall2 (fun kv line =>
             exists h, md5_file (snd kv) = Ok h
                       /\ line = fst kv ++ " " ++ abspath (snd kv) ++ " " ++ h ++ newline)
          (_path_specs m) (entry_lines m).
Proof.
  intros H.
  destruct (init_steps _ _ _ H) as (specs & first & files & _ & Ht & Hf & Hfiles & He).
  pose proof (take_metadata_reserved _ _ _ _ Ht) as Hr.
  pose proof (file_entries_not_reserved _ _ Hr Hfiles) as Hnot.
  unfold entry_lines. unfold entries in He. rewrite He, filter_app.
  assert (E1 : filter (fun e => negb (path e =? ARTIFACT_METADATA_FILENAME)%string) first = []).
  { destruct (metadata_entries_paths _ _ Hf) as [[_ ->]|(doc & h & _ & _ & ->)];
      reflexivity. }
  rewrite E1, filter_all.
  - simpl. apply file_entry_Forall2 in Hfiles. clear - Hfiles.
    induction Hfiles as [|kv e s f (Hp & Hh & Hl) _ IH]; simpl; [constructor|].
    constructor; [|exact IH].
    exists (hash e). split; [exact Hh|]. now rewrite Hp, Hl.
  - eapply Forall_impl; [|exact Hnot]. intros e He'. apply negb_true_iff.
    now apply String.eqb_neq.
Qed.
End MoreManifestFacts.

(** ** The coordinator, continued *)

Section MoreCoordinatorFacts.
Context {os : Platform} {remote : Type} {api : Api remote}.
Import LocalArtifact.

Lemma push_all_nil (w : world remote) : push_all [] w = w.
Proof.
  destruct w. unfold push_all. simpl. now rewrite app_nil_r.
Qed.

Lemma push_all_push (c : pusher_call) (calls : list pusher_call) (w : world remote) :
  push_all calls (push c w) = push_all (c :: calls) w.
Proof.
  unfold push_all, push. simpl. now rewrite <- app_assoc.
Qed.

(** The loop of [save] over entries that are files: one [file_changed]
    per entry, in order, and nothing else. *)
Lemma push_entries_files self version_id (es : list LocalArtifactEntry)
      (w : world remote) :
  Forall (fun e => path e <> ARTIFACT_METADATA_FILENAME) es ->
  push_entries self version_id es w
  = (Ok tt, push_all (map (fun e => file_changed (path e) (local_path e) version_id) es) w).
Proof.
  intros H. revert w. induction H as [|e t He _ IH]; intros w; simpl.
  - now rewrite push_all_nil.
  - unfold push_entry. apply String.eqb_neq in He. rewrite He.
    cbv iota beta. rewrite IH, push_all_push. reflexivity.
Qed.

(** What the constructor leaves: no version, and entries that are the
    metadata entry, if there is metadata, whose dump is known to succeed,
    followed by file entries. *)
Lemma constructed_entries (paths : user_paths) (md : option json) (user : bool) (self : t) :
  __init__ paths md user = Ok self ->
  _server_artifact self = None
  /\ exists files,
       Forall (fun e => path e <> ARTIFACT_METADATA_FILENAME) files
       /\ match LocalArtifactManifestV1._metadata (_local_manifest self) with
          | None => LocalArtifactManifestV1.entries (_local_manifest self) = files
          | Some doc =>
              exists h text,
                ArtifactMetadata.dump doc = Ok text
                /\ LocalArtifactManifestV1.entries (_local_manifest self)
                   = reserved_entry h :: files
          end.
Proof.
  unfold __init__. intros H. apply bind_ok in H. destruct H as (m & Hm & H).
  inversion H; subst; simpl. clear H. split; [reflexivity|].
  destruct (init_steps _ _ _ Hm) as (specs & first & files & _ & Ht & Hf & Hfiles & He).
  exists files. split.
  - eapply file_entries_not_reserved; [|exact Hfiles].
    eapply take_metadata_reserved; exact Ht.
  - unfold LocalArtifactManifestV1.metadata in Hf.
    destruct (LocalArtifactManifestV1._metadata m) as [doc|]; simpl in Hf.
    + unfold ArtifactMetadata.digest in Hf.
      destruct (ArtifactMetadata.dump doc) as [text|] eqn:Ed; simpl in Hf; [|discriminate].
      inversion Hf; subst. eauto.
    + inversion Hf; subst. exact He.
Qed.

Lemma push_entry_slept self version_id (e : LocalArtifactEntry) (w : world remote) :
  slept (snd (push_entry self version_id e w)) = slept w.
Proof.
  unfold push_entry.
  destruct (path e =? ARTIFACT_METADATA_FILENAME)%string; [|reflexivity].
  destruct (LocalArtifactManifestV1._metadata (_local_manifest self)); [|reflexivity].
  now destruct (ArtifactMetadata.dump _).
Qed.

Lemma push_entries_slept self version_id (es : list LocalArtifactEntry)
      (w : world remote) :
  slept (snd (push_entries self version_id es w)) = slept w.
Proof.
  revert w. induction es as [|e t IH]; intros w; simpl; [reflexivity|].
  pose proof (push_entry_slept self version_id e w) as H.
  destruct (push_entry self version_id e w) as [[u|e'] w']; simpl in *;
    [now rewrite IH | exact H].
Qed.

(** [save], whatever its outcome, stores the version it was given and
    leaves the manifest and the flag of the coordinator alone. *)
Theorem save_stores_version (name : string) (self : t) (w : world remote) :
  _server_artifact (snd (fst (save name self w)))
    = Some (fst (created_version self name w))
  /\ _local_manifest (snd (fst (save name self w))) = _local_manifest self
  /\ _is_user_created (snd (fst (save name self w))) = _is_user_created self
  /\ slept (snd (save name self w)) = slept w.
Proof.
  unfold save. destruct (created_version self name w) as [v r]. simpl.
  destruct (getitem_state v =? "COMMITTED")%string; [repeat split|].
  destruct (negb (getitem_state v =? "PENDING")%string); [repeat split|].
  pose proof (push_entries_slept (set_server_artifact self v) (getitem_id v)
                (LocalArtifactManifestV1.entries (_local_manifest self))
                (set_remote w r)) as Hs.
  destruct (push_entries _ _ _ _) as [[u|e] w1]; simpl in *; repeat split; exact Hs.
Qed.

(** A PENDING version, for a coordinator built without metadata: [save]
    returns the version after one [file_changed] per entry, in the order
    of the entries, each with the entry's logical path, its local path
    and the version's id, and one final [commit_artifact]; no scratch
    file is made. *)
Theorem save_pending_files (paths : user_paths) (user : bool) (self : t)
        (name : string) (w : world remote) :
  __init__ paths None user = Ok self ->
  LocalArtifactManifestV1.metadata (_local_manifest self) = None ->
  sa_state (fst (created_version self name w)) = "PENDING" ->
  save name self w
  = (Ok (fst (created_version self name w)),
     set_server_artifact self (fst (created_version self name w)),
     push_all
       (map (fun e => file_changed (path e) (local_path e)
                                   (sa_id (fst (created_version self name w))))
            (LocalArtifactManifestV1.entries (_local_manifest self))
        ++ [commit_artifact (sa_id (fst (created_version self name w)))])
       (set_remote w (snd (created_version self name w)))).
Proof.
  intros Hc Hmd Hst.
  destruct (constructed_entries _ _ _ _ Hc) as (_ & files & Hfiles & He).
  unfold LocalArtifactManifestV1.metadata in Hmd. rewrite Hmd in He.
  unfold save, getitem_state, getitem_id.
  destruct (created_version self name w) as [v r]. simpl in *.
  rewrite Hst. simpl. rewrite He.
  rewrite push_entries_files by exact Hfiles.
  unfold push_all, push. simpl. now rewrite <- app_assoc.
Qed.

(** A PENDING version, for a coordinator with metadata: the canonical
    serialization of the metadata goes to a fresh scratch file, which is
    pushed under the reserved name before the files; then the commit. *)
Theorem save_pending_metadata (paths : user_paths) (md : option json) (user : bool)
        (self : t) (doc : json) (name : string) (w : world remote) :
  __init__ paths md user = Ok self ->
  LocalArtifactManifestV1.metadata (_local_manifest self) = Some doc ->
  sa_state (fst (created_version self name w)) = "PENDING" ->
  exists text files,
    ArtifactMetadata.dump doc = Ok text
    /\ LocalArtifactManifestV1.entries (_local_manifest self)
       = hd (reserved_entry "") (LocalArtifactManifestV1.entries (_local_manifest self))
         :: files
    /\ fst (fst (save name self w)) = Ok (fst (created_version self name w))
    /\ pushed (snd (save name self w))
       = (pushed w
          ++ [named_temp_file (temp_name (length (temp_files w)));
              file_changed ARTIFACT_METADATA_FILENAME
                           (Some (temp_name (length (temp_files w))))
                           (sa_id (fst (created_version self name w)))]
          ++ map (fun e => file_changed (path e) (local_path e)
                                        (sa_id (fst (created_version self name w))))
                 files
          ++ [commit_artifact (sa_id (fst (created_version self name w)))])%list
    /\ temp_files (snd (save name self w))
       = dict_set (temp_files w) (temp_name (length (temp_files w))) text.
Proof.
  intros Hc Hmd Hst.
  destruct (constructed_entries _ _ _ _ Hc) as (_ & files & Hfiles & He).
  unfold LocalArtifactManifestV1.metadata in Hmd. rewrite Hmd in He.
  destruct He as (h & text & Hd & He).
  exists text, files. split; [exact Hd|]. split; [now rewrite He|].
  assert (Hsave :
    save name self w
    = (Ok (fst (created_version self name w)),
       set_server_artifact self (fst (created_version self name w)),
       push_all
         ([named_temp_file (temp_name (length (temp_files w)));
           file_changed ARTIFACT_METADATA_FILENAME
                        (Some (temp_name (length (temp_files w))))
                        (sa_id (fst (created_version self name w)))]
          ++ map (fun e => file_changed (path e) (local_path e)
                                        (sa_id (fst (created_version self name w))))
                 files
          ++ [commit_artifact (sa_id (fst (created_version self name w)))])
         (write_temp (temp_name (length (temp_files w))) text
                     (set_remote w (snd (created_version self name w)))))).
  { unfold save, getitem_state, getitem_id.
    destruct (created_version self name w) as [v r]. simpl in *.
    rewrite Hst. simpl. rewrite He. simpl.
    unfold push_entry. simpl. rewrite Hmd, Hd.
    rewrite push_entries_files by exact Hfiles.
    unfold push_all, push, write_temp, set_remote. simpl.
    do 2 f_equal. now rewrite <- !app_assoc. }
  rewrite Hsave. simpl. repeat split.
Qed.

(** For a coordinator that was constructed, [save] can fail in one way
    only: it returns the version when its state is COMMITTED or PENDING
    and raises [UnexpectedStateError] otherwise. *)
Theorem save_outcome (paths : user_paths) (md : option json) (user : bool)
        (self : t) (name : string) (w : world remote) :
  __init__ paths md user = Ok self ->
  fst (fst (save name self w))
  = if ((sa_state (fst (created_version self name w)) =? "COMMITTED")
        || (sa_state (fst (created_version self name w)) =? "PENDING"))%string
    then Ok (fst (created_version self name w))
    else Raise UnexpectedStateError.
Proof.
  intros Hc.
  destruct (constructed_entries _ _ _ _ Hc) as (_ & files & Hfiles & He).
  unfold save, getitem_state, getitem_id.
  destruct (created_version self name w) as [v r]. simpl.
  destruct (sa_state v =? "COMMITTED")%string; [reflexivity|].
  destruct (sa_state v =? "PENDING")%string; simpl; [|reflexivity].
  destruct (LocalArtifactManifestV1._metadata (_local_manifest self)) as [doc|] eqn:Hmd.
  - destruct He as (h & text & Hd & He). rewrite He. simpl.
    unfold push_entry at 1. simpl. rewrite Hmd, Hd.
    now rewrite push_entries_files by exact Hfiles.
  - rewrite He. now rewrite push_entries_files by exact Hfiles.
Qed.

(** [commit]: on a coordinator as constructed it raises, there being no
    version; after [save] it commits the version [save] was given, by its
    id, when that object answers attribute access, and raises otherwise.
    The file pusher is not involved. *)
Theorem commit_outcome (paths : user_paths) (md : option json) (user : bool)
        (self : t) (name : string) (w w' : world remote) :
  __init__ paths md user = Ok self ->
  commit self w = (Raise NoneTypeIdError, w)
  /\ commit (snd (fst (save name self w))) w'
     = if sa_attrs (fst (created_version self name w))
       then (Ok tt,
             set_remote w' (commit_artifact_version
                              (sa_id (fst (created_version self name w)))
                              (the_remote w')))
       else (Raise NoIdAttributeError, w').
Proof.
  intros Hc. destruct (constructed_entries _ _ _ _ Hc) as (Hnone & _).
  split; [unfold commit; now rewrite Hnone|].
  assert (Hv : _server_artifact (snd (fst (save name self w)))
               = Some (fst (created_version self name w))).
  { unfold save. destruct (created_version self name w) as [v r]. simpl.
    destruct (getitem_state v =? "COMMITTED")%string; [reflexivity|].
    destruct (negb (getitem_state v =? "PENDING")%string); [reflexivity|].
    destruct (push_entries _ _ _ _) as [[u|e] w1]; reflexivity. }
  unfold commit. rewrite Hv. unfold getattr_id.
  now destruct (sa_attrs (fst (created_version self name w))).
Qed.

(** [wait] on a stored version that answers attribute access: with the
    state READY it returns at once, the world untouched; with any other
    state it is still looping after any number of turns, has slept two
    seconds per turn, and has called neither the pusher nor written a
    scratch file. *)
Theorem wait_outcome (self : t) (a : ServerArtifact) (fuel : nat) (w : world remote) :
  _server_artifact self = Some a -> sa_attrs a = true ->
  (sa_state a = "READY" -> wait fuel self w = (Returned, w))
  /\ (sa_state a <> "READY" ->
      fst (wait fuel self w) = Blocked
      /\ slept (snd (wait fuel self w)) = slept w + 2 * fuel
      /\ pushed (snd (wait fuel self w)) = pushed w
      /\ temp_files (snd (wait fuel self w)) = temp_files w).
Proof.
  intros Hs Ha. unfold wait. rewrite Hs. split.
  - intros Hr. destruct fuel; simpl; unfold getattr_state; now rewrite Ha, Hr.
  - intros Hr. apply String.eqb_neq in Hr. revert w.
    induction fuel as [|n IH]; intros w; simpl; unfold getattr_state; rewrite Ha, Hr.
    + simpl. repeat split. lia.
    + destruct (IH (sleep 2 w)) as (H1 & H2 & H3 & H4).
      split; [exact H1|]. split; [|split; [exact H3 | exact H4]].
      rewrite H2. unfold sleep. simpl slept. lia.
Qed.
End MoreCoordinatorFacts.

(** ** LocalArtifactRead, continued *)

Section MoreReadFacts.
Context {os : Platform}.

(** A [LocalArtifactRead] exists exactly for a string that names a
    directory or a file from which a manifest without metadata argument
    can be built; the manifest it holds is that one, and [download]
    answers the directory itself, or the directory of the file. *)
Theorem read_init_outcome (name : string) (p : user_paths) (self : LocalArtifactRead.t) :
  LocalArtifactRead.__init__ name p = Ok self
  <-> exists q,
        p = PathSingle q
        /\ (isdir q = true \/ isfile q = true)
        /\ LocalArtifactManifestV1.__init__ (PathSingle q) None
           = Ok (LocalArtifactRead._local_manifest self)
        /\ LocalArtifactRead.download self = if isdir q then q else dirname q.
Proof.
  unfold LocalArtifactRead.__init__, LocalArtifactRead.download. split.
  - destruct p as [l|d|q]; try discriminate. intros H. exists q.
    split; [reflexivity|].
    apply bind_ok in H. destruct H as (dir & Hdir & H).
    apply bind_ok in H. destruct H as (m & Hm & H).
    inversion H; subst self; simpl. clear H.
    destruct (isdir q) eqn:Ed.
    + inversion Hdir; subst dir. auto.
    + destruct (isfile q) eqn:Ef; [|discriminate Hdir].
      inversion Hdir; subst dir. auto.
  - intros (q & -> & Hq & Hm & Hd). rewrite Hm. destruct self as [dir m].
    simpl in *. subst dir.
    destruct (isdir q); [reflexivity|].
    destruct Hq as [Hq|Hq]; [discriminate|]. now rewrite Hq.
Qed.
End MoreReadFacts.

(** ** The claims on the concrete platform *)

#[local] Existing Instances Demo.encoder Demo.os Demo.api.

(** C1, at a coordinator whose [save] returned a PENDING version, on a
    remote where the version is READY two seconds later: however long
    [wait] runs it is still in its loop, although the remote has reported
    the version READY since the first sleep; the loop never asks. *)
Theorem wait_never_sees_ready :
  fst (fst (LocalArtifact.save "model" Demo.fresh (Demo.world0 "PENDING")))
    = Ok {| sa_id := "v1"; sa_state := "PENDING"; sa_attrs := true |}
  /\ forall fuel,
       fst (LocalArtifact.wait fuel (Demo.after_save "PENDING")
                               (Demo.world_after_save "PENDING")) = Blocked
       /\ version_state "v1"
            (the_remote (snd (LocalArtifact.wait (S fuel) (Demo.after_save "PENDING")
                                                 (Demo.world_after_save "PENDING"))))
          = "READY".
Proof.
  split; [reflexivity|]. intros fuel. split.
  - change (Demo.after_save "PENDING")
      with (LocalArtifact.set_server_artifact Demo.fresh
              {| sa_id := "v1"; sa_state := "PENDING"; sa_attrs := true |}).
    unfold LocalArtifact.wait. simpl.
    apply wait_loop_blocked with (s := "PENDING"); [reflexivity | discriminate].
  - change (Demo.after_save "PENDING")
      with (LocalArtifact.set_server_artifact Demo.fresh
              {| sa_id := "v1"; sa_state := "PENDING"; sa_attrs := true |}).
    unfold LocalArtifact.wait. simpl LocalArtifact._server_artifact. cbv iota.
    generalize (Demo.world_after_save "PENDING").
    induction fuel as [|n IH]; intros w; [reflexivity|].
    change (LocalArtifact.wait_loop (S (S n))
              {| sa_id := "v1"; sa_state := "PENDING"; sa_attrs := true |} w)
      with (LocalArtifact.wait_loop (S n)
              {| sa_id := "v1"; sa_state := "PENDING"; sa_attrs := true |} (sleep 2 w)).
    apply IH.
Qed.

(** C4 as stated fails: a [save] that raised [UnexpectedStateError] has
    already stored the version, so on that coordinator, on which no
    [save] has succeeded, [wait] does not raise [NotSavedError]; here the
    version is READY and [wait] returns. *)
Lemma wait_after_failed_save :
  LocalArtifact.__init__ (PathDict Demo.two_files) None false = Ok Demo.fresh
  /\ fst (fst (LocalArtifact.save "model" Demo.fresh (Demo.world0 "READY")))
     = Raise UnexpectedStateError
  /\ fst (LocalArtifact.wait 0 (Demo.after_save "READY") (Demo.world_after_save "READY"))
     = Returned
  /\ fst (LocalArtifact.wait 0 (Demo.after_save "READY") (Demo.world_after_save "READY"))
     <> Raised NotSavedError.
Proof.
  repeat split; try reflexivity. vm_compute. discriminate.
Qed.

Lemma save_committed_returns_at_once_witness :
  sa_state (fst (LocalArtifact.created_version Demo.fresh "model" (Demo.world0 "COMMITTED")))
    = "COMMITTED"
  /\ fst (fst (LocalArtifact.save "model" Demo.fresh (Demo.world0 "COMMITTED")))
     = Ok {| sa_id := "v1"; sa_state := "COMMITTED"; sa_attrs := true |}
  /\ pushed (snd (LocalArtifact.save "model" Demo.fresh (Demo.world0 "COMMITTED"))) = [].
Proof.
  split; [reflexivity|].
  destruct (save_committed_returns_at_once "model" Demo.fresh (Demo.world0 "COMMITTED"))
    as (H1 & _ & H2 & _); [reflexivity|].
  split; [exact H1 | exact H2].
Defined.

Lemma save_unexpected_state_witness :
  fst (fst (LocalArtifact.save "model" Demo.fresh (Demo.world0 "FAILED")))
    = Raise UnexpectedStateError
  /\ pushed (snd (LocalArtifact.save "model" Demo.fresh (Demo.world0 "FAILED"))) = [].
Proof.
  destruct (save_unexpected_state "model" Demo.fresh (Demo.world0 "FAILED")) as [[_ H1] H2].
  assert (E : fst (fst (LocalArtifact.save "model" Demo.fresh (Demo.world0 "FAILED")))
              = Raise UnexpectedStateError).
  { apply H1. split; intros E; vm_compute in E; discriminate E. }
  split; [exact E | exact (proj1 (H2 E))].
Defined.

Lemma wait_before_save_witness :
  LocalArtifact.__init__ (PathDict Demo.two_files) None false = Ok Demo.fresh
  /\ LocalArtifact.wait 5 Demo.fresh (Demo.world0 "PENDING")
     = (Raised NotSavedError, Demo.world0 "PENDING").
Proof.
  split; [reflexivity|].
  apply (wait_before_save (PathDict Demo.two_files) None false Demo.fresh).
  reflexivity.
Defined.

Lemma duplicate_basename_list_and_mapping_witness :
  basename "/data/a.txt" = basename "/other/a.txt"
  /\ user_paths_to_path_specs (PathList ["/data/b.txt"; "/data/a.txt"; "/other/a.txt"])
     = Raise DuplicateNameError
  /\ user_paths_to_path_specs
       (PathDict [("a.txt", "/data/a.txt"); ("other/a.txt", "/other/a.txt")])
     = Ok [("a.txt", "/data/a.txt"); ("other/a.txt", "/other/a.txt")].
Proof.
  split; [reflexivity|].
  destruct (duplicate_basename_list_and_mapping
              "/data/a.txt" "/other/a.txt" ["/data/b.txt"] [] []
              "a.txt" "other/a.txt" Demo.two_files)
    as (H1 & _ & _ & H2); [reflexivity | discriminate |].
  split; [exact H1 | exact H2].
Defined.

Lemma metadata_given_twice_witness :
  user_paths_to_path_specs (PathDict Demo.with_metadata_file) = Ok Demo.with_metadata_file
  /\ dict_mem ARTIFACT_METADATA_FILENAME Demo.with_metadata_file = true
  /\ Demo.doc1 <> JNull
  /\ LocalArtifactManifestV1.__init__ (PathDict Demo.with_metadata_file) (Some Demo.doc1)
     = Raise AmbiguousMetadataError.
Proof.
  split; [reflexivity|]. split; [reflexivity|]. split; [discriminate|].
  apply (metadata_given_twice (PathDict Demo.with_metadata_file)
                              Demo.with_metadata_file Demo.doc1);
    [reflexivity | reflexivity | discriminate].
Defined.


Lemma dump_canonical_witness :
  same_doc Demo.doc1 Demo.doc2
  /\ ArtifactMetadata.dump Demo.doc1 = ArtifactMetadata.dump Demo.doc2
  /\ ArtifactMetadata.dump Demo.doc_nan = Raise SerializationError.
Proof.
  assert (Hsame : same_doc Demo.doc1 Demo.doc2).
  { unfold Demo.doc1, Demo.doc2.
    eapply same_dict; [apply perm_swap|].
    constructor; [|repeat constructor].
    eapply same_dict; [apply perm_swap|]. repeat constructor. }
  split; [exact Hsame|]. split.
  - destruct (dump_canonical Demo.doc1 Demo.doc2) as (H & _).
    destruct H as (H & _); [exact Hsame | reflexivity | exact H].
  - destruct (dump_canonical Demo.doc_nan Demo.doc_nan) as (_ & H & _).
    apply H. reflexivity.
Defined.

Lemma digest_order_invariant_witness :
  exists m1 m2,
    LocalArtifactManifestV1.__init__ (PathDict Demo.with_metadata_file) None = Ok m1
    /\ LocalArtifactManifestV1.__init__ (PathDict (rev Demo.with_metadata_file)) None = Ok m2
    /\ LocalArtifactManifestV1.digest m1 = LocalArtifactManifestV1.digest m2.
Proof.
  destruct (digest_order_invariant
              Demo.with_metadata_file (rev Demo.with_metadata_file)
              ["/data/a.txt"; "/data/b.txt"] ["/data/b.txt"; "/data/a.txt"] None)
    as (H & _).
  - apply nodupb_NoDup. reflexivity.
  - apply Permutation_rev.
  - apply perm_swap.
  - destruct (LocalArtifactManifestV1.__init__ (PathDict Demo.with_metadata_file) None)
      as [m1|e] eqn:E; [|vm_compute in E; discriminate E].
    destruct (H m1 eq_refl) as (m2 & E2 & Hd).
    exists m1, m2. split; [reflexivity|]. split; [exact E2 | exact Hd].
Defined.

Lemma read_digest_raises_witness :
  exists self,
    LocalArtifactRead.__init__ "dataset" (PathSingle "/data") = Ok self
    /\ LocalArtifactRead.digest self = Raise NotCallableError.
Proof.
  destruct (LocalArtifactRead.__init__ "dataset" (PathSingle "/data")) as [self|e] eqn:E;
    [|vm_compute in E; discriminate E].
  exists self. split; [reflexivity|].
  exact (proj1 (read_digest_raises "dataset" (PathSingle "/data") self E)).
Defined.

(** ** The further properties on the concrete platform *)

Lemma list_form_items_witness :
  user_paths_to_path_specs (PathList ["/data/a.txt"; "/data/b.txt"]) = Ok Demo.two_files
  /\ keys Demo.two_files = map basename ["/data/a.txt"; "/data/b.txt"]
  /\ NoDup (keys Demo.two_files).
Proof.
  split; [reflexivity|].
  destruct (list_form_items ["/data/a.txt"; "/data/b.txt"] Demo.two_files)
    as (_ & H1 & H2 & _); [reflexivity|].
  split; [exact H1 | exact H2].
Defined.

Lemma single_path_outcome_witness :
  isdir "/other/a.txt" = false
  /\ user_paths_to_path_specs (PathSingle "/other/a.txt") = Ok [("a.txt", "/other/a.txt")]
  /\ user_paths_to_path_specs (PathSingle "/nowhere") = Raise InvalidInputError.
Proof.
  split; [reflexivity|]. split.
  - exact (single_path_outcome "/other/a.txt" eq_refl).
  - exact (single_path_outcome "/nowhere" eq_refl).
Defined.

Lemma directory_outcome_witness :
  isdir "/data" = true
  /\ exists specs,
       user_paths_to_path_specs (PathSingle "/data") = Ok specs
       /\ NoDup (keys specs)
       /\ dict_mem "b.txt" specs = true.
Proof.
  split; [reflexivity|].
  destruct (directory_outcome "/data") as (_ & H); [reflexivity|].
  destruct H as (specs & Hs & Hnd & _ & Hmem); [discriminate|].
  exists specs. split; [exact Hs|]. split; [exact Hnd|].
  apply (Hmem "/data/b.txt"). vm_compute. auto.
Defined.

Lemma path_specs_distinct_witness :
  well_formed (PathDict Demo.with_metadata_file)
  /\ user_paths_to_path_specs (PathDict Demo.with_metadata_file)
     = Ok Demo.with_metadata_file
  /\ NoDup (keys Demo.with_metadata_file).
Proof.
  assert (Hwf : well_formed (PathDict Demo.with_metadata_file))
    by (apply nodupb_NoDup; reflexivity).
  split; [exact Hwf|]. split; [reflexivity|].
  destruct (path_specs_distinct (PathDict Demo.with_metadata_file)
                                Demo.with_metadata_file Hwf)
    as (_ & H); [reflexivity | exact H].
Defined.

Lemma forms_agree_witness :
  NoDup (map basename ["/data/a.txt"; "/data/b.txt"])
  /\ LocalArtifactManifestV1.__init__ (PathList ["/data/a.txt"; "/data/b.txt"]) None
     = LocalArtifactManifestV1.__init__ (PathDict Demo.two_files) None
  /\ LocalArtifactManifestV1.__init__ (PathSingle "/other/a.txt") None
     = LocalArtifactManifestV1.__init__ (PathList ["/other/a.txt"]) None.
Proof.
  assert (Hnd : NoDup (map basename ["/data/a.txt"; "/data/b.txt"]))
    by (apply nodupb_NoDup; reflexivity).
  split; [exact Hnd|].
  exact (forms_agree ["/data/a.txt"; "/data/b.txt"] "/other/a.txt" None
                     Hnd eq_refl eq_refl).
Defined.

Lemma manifest_layout_witness :
  exists m first files,
    LocalArtifactManifestV1.__init__ (PathSingle "/data") None = Ok m
    /\ LocalArtifactManifestV1.entries m = (first ++ files)%list
    /\ length files = 2
    /\ dict_mem ARTIFACT_METADATA_FILENAME (LocalArtifactManifestV1._path_specs m) = false.
Proof.
  destruct (LocalArtifactManifestV1.__init__ (PathSingle "/data") None) as [m|e] eqn:E;
    [|vm_compute in E; discriminate E].
  destruct (manifest_layout (PathSingle "/data") None m E)
    as (Hr & first & files & He & _ & Hf).
  exists m, first, files. split; [reflexivity|]. split; [exact He|].
  split; [|exact Hr].
  apply Forall2_length in Hf. rewrite <- Hf.
  vm_compute in E. inversion E. reflexivity.
Defined.

Lemma manifest_entries_distinct_witness :
  exists m,
    LocalArtifactManifestV1.__init__ (PathDict Demo.with_metadata_file) None = Ok m
    /\ NoDup (map path (LocalArtifactManifestV1.entries m)).
Proof.
  destruct (LocalArtifactManifestV1.__init__ (PathDict Demo.with_metadata_file) None)
    as [m|e] eqn:E; [|vm_compute in E; discriminate E].
  exists m. split; [reflexivity|].
  destruct (manifest_entries_distinct (PathDict Demo.with_metadata_file) None m)
    as (H & _); [apply nodupb_NoDup; reflexivity | exact E | exact H].
Defined.

Lemma metadata_argument_kept_witness :
  exists m,
    LocalArtifactManifestV1.__init__ (PathDict Demo.two_files) (Some Demo.doc1) = Ok m
    /\ LocalArtifactManifestV1.metadata m = Some Demo.doc1
    /\ length (LocalArtifactManifestV1.entries m) = 3.
Proof.
  destruct (LocalArtifactManifestV1.__init__ (PathDict Demo.two_files) (Some Demo.doc1))
    as [m|e] eqn:E; [|vm_compute in E; discriminate E].
  exists m. split; [reflexivity|].
  destruct (metadata_argument_kept (PathDict Demo.two_files) (Some Demo.doc1)
                                   Demo.two_files m)
    as (H1 & _ & H2); [reflexivity | reflexivity | exact E |].
  split; [exact H1 | exact H2].
Defined.

Lemma unreadable_file_aborts_witness :
  @md5_file Demo.os_unreadable "/data/b.txt" = Raise IOError
  /\ exists e,
       @LocalArtifactManifestV1.__init__ Demo.os_unreadable (PathDict Demo.two_files) None
       = Raise e.
Proof.
  split; [reflexivity|].
  apply (@unreadable_file_aborts Demo.os_unreadable (PathDict Demo.two_files) None
           Demo.two_files "b.txt" "/data/b.txt" IOError).
  - reflexivity.
  - right. left. reflexivity.
  - discriminate.
  - reflexivity.
Defined.

Lemma nonfinite_metadata_aborts_witness :
  has_nonfinite Demo.doc_nan = true
  /\ LocalArtifactManifestV1.__init__ (PathDict Demo.two_files) (Some Demo.doc_nan)
     = Raise SerializationError.
Proof.
  split; [reflexivity|].
  destruct (nonfinite_metadata_aborts (PathDict Demo.two_files) Demo.two_files Demo.doc_nan)
    as (H & _); [reflexivity | reflexivity |].
  apply H. reflexivity.
Defined.

Lemma metadata_only_manifest_witness :
  exists m h,
    LocalArtifactManifestV1.__init__ (PathDict Demo.metadata_file_only) None = Ok m
    /\ LocalArtifactManifestV1.entries m = [reserved_entry h]
    /\ LocalArtifactManifestV1._path_specs m = [].
Proof.
  destruct (metadata_only_manifest (PathDict Demo.metadata_file_only)
                                   "/data/artifact-metadata.json" Demo.doc_file)
    as (m & h & H1 & _ & H2 & H3 & _); [reflexivity | reflexivity | reflexivity |].
  exists m, h. split; [exact H1|]. split; [exact H2 | exact H3].
Defined.

Lemma init_succeeds_witness :
  exists m,
    LocalArtifactManifestV1.__init__ (PathDict Demo.two_files) (Some Demo.doc1) = Ok m
    /\ LocalArtifactManifestV1._path_specs m = Demo.two_files.
Proof.
  destruct (init_succeeds (PathDict Demo.two_files) (Some Demo.doc1) Demo.two_files)
    as (m & H1 & H2 & _).
  - reflexivity.
  - reflexivity.
  - reflexivity.
  - repeat constructor; simpl; eauto.
  - exists m. split; [exact H1 | exact H2].
Defined.

Lemma dump_entry_lines_witness :
  exists m,
    LocalArtifactManifestV1.__init__ (PathSingle "/data") None = Ok m
    /\ length (LocalArtifactManifestV1.entry_lines m) = 2.
Proof.
  destruct (LocalArtifactManifestV1.__init__ (PathSingle "/data") None) as [m|e] eqn:E;
    [|vm_compute in E; discriminate E].
  exists m. split; [reflexivity|].
  pose proof (dump_entry_lines (PathSingle "/data") None m E) as H.
  apply Forall2_length in H. rewrite <- H.
  vm_compute in E. inversion E. reflexivity.
Defined.

Lemma save_pending_files_witness :
  LocalArtifact.__init__ (PathDict Demo.two_files) None false = Ok Demo.fresh
  /\ pushed (snd (LocalArtifact.save "model" Demo.fresh (Demo.world0 "PENDING")))
     = [file_changed "a.txt" (Some "/data/a.txt") "v1";
        file_changed "b.txt" (Some "/data/b.txt") "v1";
        commit_artifact "v1"].
Proof.
  split; [reflexivity|].
  rewrite (save_pending_files (PathDict Demo.two_files) false Demo.fresh "model"
                              (Demo.world0 "PENDING"));
    reflexivity.
Defined.

Lemma save_pending_metadata_witness :
  exists self text,
    LocalArtifact.__init__ (PathSingle "/data") None false = Ok self
    /\ ArtifactMetadata.dump Demo.doc_file = Ok text
    /\ temp_files (snd (LocalArtifact.save "model" self (Demo.world0 "PENDING")))
       = [("/tmp/tmp0", text)].
Proof.
  destruct (LocalArtifact.__init__ (PathSingle "/data") None false) as [self|e] eqn:E;
    [|vm_compute in E; discriminate E].
  destruct (save_pending_metadata (PathSingle "/data") None false self Demo.doc_file
                                  "model" (Demo.world0 "PENDING"))
    as (text & files & Hd & _ & _ & _ & Ht).
  - exact E.
  - vm_compute in E. inversion E. reflexivity.
  - reflexivity.
  - exists self, text. split; [reflexivity|]. split; [exact Hd | exact Ht].
Defined.

Lemma save_outcome_witness :
  fst (fst (LocalArtifact.save "model" Demo.fresh (Demo.world0 "DELETED")))
    = Raise UnexpectedStateError
  /\ fst (fst (LocalArtifact.save "model" Demo.fresh (Demo.world0 "PENDING")))
     = Ok {| sa_id := "v1"; sa_state := "PENDING"; sa_attrs := true |}.
Proof.
  split.
  - rewrite (save_outcome (PathDict Demo.two_files) None false Demo.fresh "model"
                          (Demo.world0 "DELETED")); reflexivity.
  - rewrite (save_outcome (PathDict Demo.two_files) None false Demo.fresh "model"
                          (Demo.world0 "PENDING")); reflexivity.
Defined.

Lemma commit_outcome_witness :
  LocalArtifact.commit Demo.fresh (Demo.world0 "PENDING")
    = (Raise NoneTypeIdError, Demo.world0 "PENDING")
  /\ the_remote (snd (LocalArtifact.commit (Demo.after_save "PENDING")
                                           (Demo.world_after_save "PENDING")))
     = "COMMITTED".
Proof.
  destruct (commit_outcome (PathDict Demo.two_files) None false Demo.fresh "model"
                           (Demo.world0 "PENDING") (Demo.world_after_save "PENDING"))
    as (H1 & H2); [reflexivity|].
  split; [exact H1|].
  unfold Demo.after_save. rewrite H2. reflexivity.
Defined.

Lemma wait_outcome_witness :
  LocalArtifact._server_artifact (Demo.after_save "PENDING")
    = Some {| sa_id := "v1"; sa_state := "PENDING"; sa_attrs := true |}
  /\ slept (snd (LocalArtifact.wait 3 (Demo.after_save "PENDING")
                                    (Demo.world_after_save "PENDING"))) = 6.
Proof.
  split; [reflexivity|].
  destruct (wait_outcome (Demo.after_save "PENDING")
                         {| sa_id := "v1"; sa_state := "PENDING"; sa_attrs := true |}
                         3 (Demo.world_after_save "PENDING"))
    as (_ & H); [reflexivity | reflexivity |].
  destruct H as (_ & H & _); [discriminate|]. rewrite H. reflexivity.
Defined.

Lemma read_init_outcome_witness :
  exists self,
    LocalArtifactRead.__init__ "dataset" (PathSingle "/data/a.txt") = Ok self
    /\ LocalArtifactRead.download self = "/data".
Proof.
  destruct (LocalArtifactRead.__init__ "dataset" (PathSingle "/data/a.txt"))
    as [self|e] eqn:E; [|vm_compute in E; discriminate E].
  exists self. split; [reflexivity|].
  destruct (proj1 (read_init_outcome "dataset" (PathSingle "/data/a.txt") self) E)
    as (q & Hq & _ & _ & Hd).
  inversion Hq; subst q. rewrite Hd. reflexivity.
Defined.
